(** * VoxSplit (audiosplitter) front end

    A shallow embedding of the client of the audio separator:
    - [frontend/src/types/index.ts]            the data model,
    - [frontend/src/stores/useStore.ts]        the zustand store and its actions,
    - [frontend/src/hooks/useAudioAnalysis.ts] the polling, export and preview hooks,
    - [frontend/src/components/FileUpload.tsx] the upload validation,
    - [AudioPlayer]                            the preview request of the player,
    together with the mixing engine of the design document, whose code
    ([backend/app/services/mixer.py]) is not part of the sources at hand.

    JavaScript numbers are IEEE 754 doubles; they are modelled by [spec_float]
    (precision 53, maximal exponent 1024), so that NaN, the infinities and the
    two zeros behave as they do in the program. *)

From Stdlib Require Import ZArith List String Ascii Bool Lia.
From Stdlib Require Import Floats.SpecFloat.
Import ListNotations.

Local Open Scope string_scope.
Local Open Scope list_scope.

(** ** JavaScript values *)

Module JS.

Definition number := spec_float.

(** A numeric literal with an integral value, e.g. [2], [60], [1.0]. *)
Definition of_Z (z : Z) : number := binary_normalize 53 1024 z 0 false.

Definition NaN : number := S754_nan.
Definition Infinity : number := S754_infinity false.
Definition neg_Infinity : number := S754_infinity true.
Definition pos_zero : number := S754_zero false.
Definition neg_zero : number := S754_zero true.

Definition isNaN (x : number) : bool :=
  match x with S754_nan => true | _ => false end.

Definition is_pos_zero (x : number) : bool :=
  match x with S754_zero false => true | _ => false end.

Definition is_neg_zero (x : number) : bool :=
  match x with S754_zero true => true | _ => false end.

(** The relational operators [<], [<=], [>], [>=] on numbers: every
    comparison with NaN is false. *)
Definition lt (x y : number) : bool := SFltb x y.
Definition le (x y : number) : bool := SFleb x y.
Definition gt (x y : number) : bool := SFltb y x.
Definition ge (x y : number) : bool := SFleb y x.

(** [Math.min(...args)] (ECMA-262, 21.3.2.25): [lowest] starts at
    +Infinity; for each argument in turn, a NaN makes the result NaN, a -0
    replaces a lowest of +0, and a number below [lowest] replaces it. *)
Fixpoint min_loop (lowest : number) (args : list number) : number :=
  match args with
  | [] => lowest
  | x :: rest =>
      if isNaN x then NaN
      else if is_neg_zero x && is_pos_zero lowest then min_loop neg_zero rest
      else if lt x lowest then min_loop x rest
      else min_loop lowest rest
  end.

Definition Math_min (args : list number) : number := min_loop Infinity args.

(** [Math.max(...args)] (ECMA-262, 21.3.2.24): [highest] starts at
    -Infinity; for each argument in turn, a NaN makes the result NaN, a +0
    replaces a highest of -0, and a number above [highest] replaces it. *)
Fixpoint max_loop (highest : number) (args : list number) : number :=
  match args with
  | [] => highest
  | x :: rest =>
      if isNaN x then NaN
      else if is_pos_zero x && is_neg_zero highest then max_loop pos_zero rest
      else if gt x highest then max_loop x rest
      else max_loop highest rest
  end.

Definition Math_max (args : list number) : number := max_loop neg_Infinity args.

(** Truthiness of a [string | null | undefined] value: null, undefined
    and the empty string are falsy. *)
Definition truthy (s : option string) : bool :=
  match s with
  | Some EmptyString => false
  | Some _ => true
  | None => false
  end.

(** [a || b] where [b] is a string: the first operand when it is truthy. *)
Definition or_else (a : option string) (b : string) : string :=
  match a with
  | Some EmptyString => b
  | Some s => s
  | None => b
  end.

(** [Array.prototype.map] passes the index as second argument. *)
Fixpoint mapi_from {A B : Type} (i : nat) (f : A -> nat -> B) (l : list A) : list B :=
  match l with
  | [] => []
  | x :: rest => f x i :: mapi_from (S i) f rest
  end.

Definition mapi {A B : Type} (f : A -> nat -> B) (l : list A) : list B :=
  mapi_from 0 f l.

(** [String.prototype.split] with a one-character separator: the result is
    never empty, [split sep ""] is [[""]]. *)
Fixpoint split (sep : ascii) (s : string) : list string :=
  match s with
  | EmptyString => [EmptyString]
  | String c s' =>
      if Ascii.eqb c sep then EmptyString :: split sep s'
      else match split sep s' with
           | [] => [String c EmptyString]
           | h :: t => String c h :: t
           end
  end.

(** [Array.prototype.pop]: the last element, [undefined] on an empty array. *)
Fixpoint pop {A : Type} (l : list A) : option A :=
  match l with
  | [] => None
  | [x] => Some x
  | _ :: rest => pop rest
  end.

(** [String.prototype.toLowerCase] on the ASCII letters; the other
    characters of the byte string are left as they are. *)
Definition lower_ascii (c : ascii) : ascii :=
  let n := nat_of_ascii c in
  if (65 <=? n)%nat && (n <=? 90)%nat then ascii_of_nat (n + 32) else c.

Fixpoint toLowerCase (s : string) : string :=
  match s with
  | EmptyString => EmptyString
  | String c s' => String (lower_ascii c) (toLowerCase s')
  end.

(** [Array.prototype.includes] on an array of strings. *)
Definition includes (l : list string) (x : string) : bool :=
  existsb (String.eqb x) l.

(** [String.prototype.startsWith]. *)
Definition startsWith (s p : string) : bool := String.prefix p s.

End JS.

Import JS.

(** ** Data model ([types/index.ts]) *)

Inductive ProcessingStatus : Type :=
  | pending | processing | separating | diarizing | complete | failed.

Inductive TrackType : Type :=
  | speaker | noise | vocals | drums | bass | other.

Inductive OutputFormat : Type := wav | mp3 | flac.

Definition ProcessingStatus_eqb (a b : ProcessingStatus) : bool :=
  match a, b with
  | pending, pending | processing, processing | separating, separating
  | diarizing, diarizing | complete, complete | failed, failed => true
  | _, _ => false
  end.

Definition TrackType_eqb (a b : TrackType) : bool :=
  match a, b with
  | speaker, speaker | noise, noise | vocals, vocals
  | drums, drums | bass, bass | other, other => true
  | _, _ => false
  end.

Module SpeakerSegment.
Record t : Type := mk {
  start : number;
  end_ : number;
  speaker_id : string;
  confidence : number
}.
End SpeakerSegment.

Module Track.
Record t : Type := mk {
  id : string;
  name : string;
  type : TrackType;
  file_path : string;
  duration_seconds : number;
  segments : list SpeakerSegment.t;
  waveform_data : option (list number);
  color : string
}.
End Track.

Module TrackConfig.
Record t : Type := mk {
  track_id : string;
  muted : bool;
  solo : bool;
  volume : number;
  is_main : bool
}.
End TrackConfig.

Module MixConfig.
Record t : Type := mk {
  job_id : string;
  tracks : list TrackConfig.t;
  main_speaker_boost_db : number;
  noise_reduction_level : number;
  output_format : OutputFormat;
  normalize : bool
}.
End MixConfig.

Module UploadResponse.
Record t : Type := mk {
  job_id : string;
  filename : string;
  duration_seconds : number;
  sample_rate : number;
  status : ProcessingStatus;
  message : string
}.
End UploadResponse.

Module AnalysisResult.
Record t : Type := mk {
  job_id : string;
  status : ProcessingStatus;
  original_filename : string;
  duration_seconds : number;
  speaker_count : number;
  tracks : list Track.t;
  created_at : string;
  completed_at : option string;
  error_message : option string
}.
End AnalysisResult.

Module JobStatusResponse.
Record t : Type := mk {
  job_id : string;
  status : ProcessingStatus;
  progress : number;
  current_step : string;
  result : option AnalysisResult.t
}.
End JobStatusResponse.

Module PreviewResponse.
Record t : Type := mk {
  preview_url : string;
  duration_seconds : number
}.
End PreviewResponse.

Module ExportResponse.
Record t : Type := mk {
  download_url : string;
  filename : string;
  file_size_bytes : number;
  duration_seconds : number;
  format : string
}.
End ExportResponse.

(** [TrackUIState extends Track]: the track itself ([...track]) and the four
    mix parameters of the user interface. *)
Module TrackUIState.
Record t : Type := mk {
  track : Track.t;
  muted : bool;
  solo : bool;
  volume : number;
  isMain : bool
}.
Definition id (u : t) : string := Track.id (track u).
Definition type (u : t) : TrackType := Track.type (track u).
End TrackUIState.

(** The part of a browser [File] the program reads: its name and its size
    in bytes. *)
Module File.
Record t : Type := mk {
  name : string;
  size : Z
}.
End File.

Record AppState : Type := mkAppState {
  uploadedFile : option File.t;
  uploadProgress : number;
  jobId : option string;
  status : ProcessingStatus;
  progress : number;
  currentStep : string;
  result : option AnalysisResult.t;
  tracks : list TrackUIState.t;
  mainSpeakerBoostDb : number;
  noiseReductionLevel : number;
  outputFormat : OutputFormat;
  normalize : bool;
  isPlaying : bool;
  currentTime : number;
  isExporting : bool;
  exportUrl : option string;
  error : option string
}.

(** ** The store ([stores/useStore.ts]) *)

Definition initialState : AppState := {|
  uploadedFile := None;
  uploadProgress := of_Z 0;
  jobId := None;
  status := pending;
  progress := of_Z 0;
  currentStep := "";
  result := None;
  tracks := [];
  mainSpeakerBoostDb := of_Z 3;
  noiseReductionLevel := of_Z 0;
  outputFormat := wav;
  normalize := true;
  isPlaying := false;
  currentTime := of_Z 0;
  isExporting := false;
  exportUrl := None;
  error := None
|}.

(** zustand's [set(partial)] merges the fields of a partial state into the
    current one. A partial state is the list of the fields it has. *)
Inductive Field : Type :=
  | F_uploadedFile (v : option File.t)
  | F_uploadProgress (v : number)
  | F_jobId (v : option string)
  | F_status (v : ProcessingStatus)
  | F_progress (v : number)
  | F_currentStep (v : string)
  | F_result (v : option AnalysisResult.t)
  | F_tracks (v : list TrackUIState.t)
  | F_mainSpeakerBoostDb (v : number)
  | F_noiseReductionLevel (v : number)
  | F_outputFormat (v : OutputFormat)
  | F_normalize (v : bool)
  | F_isPlaying (v : bool)
  | F_currentTime (v : number)
  | F_isExporting (v : bool)
  | F_exportUrl (v : option string)
  | F_error (v : option string).

Definition assign (s : AppState) (f : Field) : AppState :=
  let 'mkAppState a b c d e g h i j k l m n o p q r := s in
  match f with
  | F_uploadedFile v => mkAppState v b c d e g h i j k l m n o p q r
  | F_uploadProgress v => mkAppState a v c d e g h i j k l m n o p q r
  | F_jobId v => mkAppState a b v d e g h i j k l m n o p q r
  | F_status v => mkAppState a b c v e g h i j k l m n o p q r
  | F_progress v => mkAppState a b c d v g h i j k l m n o p q r
  | F_currentStep v => mkAppState a b c d e v h i j k l m n o p q r
  | F_result v => mkAppState a b c d e g v i j k l m n o p q r
  | F_tracks v => mkAppState a b c d e g h v j k l m n o p q r
  | F_mainSpeakerBoostDb v => mkAppState a b c d e g h i v k l m n o p q r
  | F_noiseReductionLevel v => mkAppState a b c d e g h i j v l m n o p q r
  | F_outputFormat v => mkAppState a b c d e g h i j k v m n o p q r
  | F_normalize v => mkAppState a b c d e g h i j k l v n o p q r
  | F_isPlaying v => mkAppState a b c d e g h i j k l m v o p q r
  | F_currentTime v => mkAppState a b c d e g h i j k l m n v p q r
  | F_isExporting v => mkAppState a b c d e g h i j k l m n o v q r
  | F_exportUrl v => mkAppState a b c d e g h i j k l m n o p v r
  | F_error v => mkAppState a b c d e g h i j k l m n o p q v
  end.

Definition set (partial : list Field) (s : AppState) : AppState :=
  fold_left assign partial s.

(** The fields of a full state, as [set(initialState)] reads them. *)
Definition entries (s : AppState) : list Field :=
  [ F_uploadedFile (uploadedFile s); F_uploadProgress (uploadProgress s);
    F_jobId (jobId s); F_status (status s); F_progress (progress s);
    F_currentStep (currentStep s); F_result (result s); F_tracks (tracks s);
    F_mainSpeakerBoostDb (mainSpeakerBoostDb s);
    F_noiseReductionLevel (noiseReductionLevel s);
    F_outputFormat (outputFormat s); F_normalize (normalize s);
    F_isPlaying (isPlaying s); F_currentTime (currentTime s);
    F_isExporting (isExporting s); F_exportUrl (exportUrl s);
    F_error (error s) ].

Definition setUploadedFile (file : option File.t) : AppState -> AppState :=
  set [F_uploadedFile file].
Definition setJobId (j : option string) : AppState -> AppState :=
  set [F_jobId j].
Definition setStatus (st : ProcessingStatus) : AppState -> AppState :=
  set [F_status st].
Definition setProgress (p : number) : AppState -> AppState :=
  set [F_progress p].
Definition setCurrentStep (c : string) : AppState -> AppState :=
  set [F_currentStep c].

(** [setResult]: the tracks of a result become UI tracks with default mix
    parameters ([withDefaults] is the function it maps over them); the
    first track is main when it is a speaker. *)
Definition withDefaults (track : Track.t) (index : nat) : TrackUIState.t :=
  {| TrackUIState.track := track;
     TrackUIState.muted := false;
     TrackUIState.solo := false;
     TrackUIState.volume := of_Z 1;
     TrackUIState.isMain :=
       Nat.eqb index 0 && TrackType_eqb (Track.type track) speaker |}.

Definition setResult (r : option AnalysisResult.t) : AppState -> AppState :=
  match r with
  | Some res =>
      let tracks := mapi withDefaults (AnalysisResult.tracks res) in
      set [F_result (Some res); F_tracks tracks]
  | None => set [F_result None; F_tracks []]
  end.

Definition setTracks (ts : list TrackUIState.t) : AppState -> AppState :=
  set [F_tracks ts].

Definition toggleTrackMute (trackId : string) (s : AppState) : AppState :=
  let tracks := tracks s in
  set [F_tracks
         (map (fun track =>
                 if String.eqb (TrackUIState.id track) trackId
                 then {| TrackUIState.track := TrackUIState.track track;
                         TrackUIState.muted := negb (TrackUIState.muted track);
                         TrackUIState.solo := TrackUIState.solo track;
                         TrackUIState.volume := TrackUIState.volume track;
                         TrackUIState.isMain := TrackUIState.isMain track |}
                 else track)
              tracks)] s.

Definition toggleTrackSolo (trackId : string) (s : AppState) : AppState :=
  let tracks := tracks s in
  set [F_tracks
         (map (fun track =>
                 if String.eqb (TrackUIState.id track) trackId
                 then {| TrackUIState.track := TrackUIState.track track;
                         TrackUIState.muted := TrackUIState.muted track;
                         TrackUIState.solo := negb (TrackUIState.solo track);
                         TrackUIState.volume := TrackUIState.volume track;
                         TrackUIState.isMain := TrackUIState.isMain track |}
                 else track)
              tracks)] s.

Definition setTrackVolume (trackId : string) (volume : number) (s : AppState) : AppState :=
  let tracks := tracks s in
  set [F_tracks
         (map (fun track =>
                 if String.eqb (TrackUIState.id track) trackId
                 then {| TrackUIState.track := TrackUIState.track track;
                         TrackUIState.muted := TrackUIState.muted track;
                         TrackUIState.solo := TrackUIState.solo track;
                         TrackUIState.volume :=
                           Math_max [of_Z 0; Math_min [of_Z 2; volume]];
                         TrackUIState.isMain := TrackUIState.isMain track |}
                 else track)
              tracks)] s.

Definition setMainSpeaker (trackId : string) (s : AppState) : AppState :=
  let tracks := tracks s in
  set [F_tracks
         (map (fun track =>
                 {| TrackUIState.track := TrackUIState.track track;
                    TrackUIState.muted := TrackUIState.muted track;
                    TrackUIState.solo := TrackUIState.solo track;
                    TrackUIState.volume := TrackUIState.volume track;
                    TrackUIState.isMain :=
                      String.eqb (TrackUIState.id track) trackId |})
              tracks)] s.

Definition setMainSpeakerBoostDb (db : number) : AppState -> AppState :=
  set [F_mainSpeakerBoostDb db].
Definition setNoiseReductionLevel (level : number) : AppState -> AppState :=
  set [F_noiseReductionLevel level].
Definition setOutputFormat (format : OutputFormat) : AppState -> AppState :=
  set [F_outputFormat format].
Definition setNormalize (n : bool) : AppState -> AppState :=
  set [F_normalize n].
Definition setIsPlaying (p : bool) : AppState -> AppState :=
  set [F_isPlaying p].
Definition setCurrentTime (t : number) : AppState -> AppState :=
  set [F_currentTime t].
Definition setIsExporting (e : bool) : AppState -> AppState :=
  set [F_isExporting e].
Definition setExportUrl (u : option string) : AppState -> AppState :=
  set [F_exportUrl u].
Definition setError (e : option string) : AppState -> AppState :=
  set [F_error e].

Definition reset : AppState -> AppState := set (entries initialState).

(** [state.jobId || '']. *)
Definition getMixConfig (state : AppState) : MixConfig.t :=
  {| MixConfig.job_id := or_else (jobId state) "";
     MixConfig.tracks :=
       map (fun track =>
              {| TrackConfig.track_id := TrackUIState.id track;
                 TrackConfig.muted := TrackUIState.muted track;
                 TrackConfig.solo := TrackUIState.solo track;
                 TrackConfig.volume := TrackUIState.volume track;
                 TrackConfig.is_main := TrackUIState.isMain track |})
           (tracks state);
     MixConfig.main_speaker_boost_db := mainSpeakerBoostDb state;
     MixConfig.noise_reduction_level := noiseReductionLevel state;
     MixConfig.output_format := outputFormat state;
     MixConfig.normalize := normalize state |}.

(** ** The API client and the world the hooks act on *)

(** What the handlers read of a thrown request error:
    [error.response?.data?.detail] and [error.message]. *)
Module ApiError.
Record t : Type := mk {
  detail : option string;
  message : option string
}.
End ApiError.

(** [error.response?.data?.detail || error.message || fallback]. *)
Definition error_text (e : ApiError.t) (fallback : string) : string :=
  or_else (ApiError.detail e) (or_else (ApiError.message e) fallback).

(** The requests of [audioApi], with the body each one posts. *)
Inductive Request : Type :=
  | POST_upload (file : File.t)
  | POST_analyze (jobId : string)
  | GET_status (jobId : string)
  | POST_preview (job_id : string) (mix_config : MixConfig.t) (start_time duration : number)
  | POST_export (job_id : string) (mix_config : MixConfig.t) (filename : option string)
  | DELETE_job (jobId : string).

(** The value of [setInterval(poll, ms)]. *)
Inductive Timer : Type := interval (ms : Z).

(** Local state of [useAudioAnalysis]. *)
Module AnalysisHook.
Record t : Type := mk {
  isUploading : bool;
  uploadProgress : number;
  pollingRef : option Timer
}.
End AnalysisHook.

(** Local state of [useAudioExport]. *)
Module ExportHook.
Record t : Type := mk { isExporting : bool }.
End ExportHook.

(** Local state of [useAudioPreview]. *)
Module PreviewHook.
Record t : Type := mk {
  previewUrl : option string;
  isGenerating : bool
}.
End PreviewHook.

(** Local state of the [FileUpload] component. *)
Module FileUploadC.
Record t : Type := mk {
  isDragging : bool;
  validationError : option string
}.
End FileUploadC.

(** Local state of the [AudioPlayer] component. *)
Module AudioPlayerC.
Record t : Type := mk {
  previewUrl : option string;
  hasGeneratedPreview : bool;
  previewError : option string
}.
End AudioPlayerC.

Record World : Type := mkWorld {
  store : AppState;
  sent : list Request;
  analysis : AnalysisHook.t;
  exporter : ExportHook.t;
  preview : PreviewHook.t;
  fileUpload : FileUploadC.t;
  player : AudioPlayerC.t
}.

(** A handler is a computation on the world. *)
Definition M (A : Type) : Type := World -> A * World.

Definition ret {A : Type} (a : A) : M A := fun w => (a, w).
Definition bind {A B : Type} (m : M A) (k : A -> M B) : M B :=
  fun w => let '(a, w') := m w in k a w'.
Definition exec {A : Type} (m : M A) (w : World) : World := snd (m w).
Definition gets {A : Type} (f : AppState -> A) : M A := fun w => (f (store w), w).

Declare Scope handler_scope.
Delimit Scope handler_scope with handler.
Notation "x <- m ;; k" := (bind m (fun x => k))
  (at level 61, m at next level, right associativity) : handler_scope.
Notation "m ;; k" := (bind m (fun _ => k))
  (at level 61, right associativity) : handler_scope.
Local Open Scope handler_scope.

(** A store action. *)
Definition act (f : AppState -> AppState) : M unit :=
  fun w => let 'mkWorld s q a e p u pl := w in (tt, mkWorld (f s) q a e p u pl).

(** An HTTP request leaves the browser. *)
Definition send (r : Request) : M unit :=
  fun w => let 'mkWorld s q a e p u pl := w in (tt, mkWorld s (q ++ [r]) a e p u pl).

Definition setIsUploading (b : bool) : M unit :=
  fun w => let 'mkWorld s q a e p u pl := w in
    (tt, mkWorld s q (AnalysisHook.mk b (AnalysisHook.uploadProgress a) (AnalysisHook.pollingRef a))
                 e p u pl).
Definition setUploadProgress (n : number) : M unit :=
  fun w => let 'mkWorld s q a e p u pl := w in
    (tt, mkWorld s q (AnalysisHook.mk (AnalysisHook.isUploading a) n (AnalysisHook.pollingRef a))
                 e p u pl).
Definition setPollingRef (t : option Timer) : M unit :=
  fun w => let 'mkWorld s q a e p u pl := w in
    (tt, mkWorld s q (AnalysisHook.mk (AnalysisHook.isUploading a) (AnalysisHook.uploadProgress a) t)
                 e p u pl).
Definition setLocalIsExporting (b : bool) : M unit :=
  fun w => let 'mkWorld s q a e p u pl := w in (tt, mkWorld s q a (ExportHook.mk b) p u pl).
Definition setPreviewUrl (url : option string) : M unit :=
  fun w => let 'mkWorld s q a e p u pl := w in
    (tt, mkWorld s q a e (PreviewHook.mk url (PreviewHook.isGenerating p)) u pl).
Definition setIsGenerating (b : bool) : M unit :=
  fun w => let 'mkWorld s q a e p u pl := w in
    (tt, mkWorld s q a e (PreviewHook.mk (PreviewHook.previewUrl p) b) u pl).
Definition setValidationError (err : option string) : M unit :=
  fun w => let 'mkWorld s q a e p u pl := w in
    (tt, mkWorld s q a e p (FileUploadC.mk (FileUploadC.isDragging u) err) pl).
Definition setPlayerPreviewUrl (url : option string) : M unit :=
  fun w => let 'mkWorld s q a e p u pl := w in
    (tt, mkWorld s q a e p u
           (AudioPlayerC.mk url (AudioPlayerC.hasGeneratedPreview pl) (AudioPlayerC.previewError pl))).
Definition setHasGeneratedPreview (b : bool) : M unit :=
  fun w => let 'mkWorld s q a e p u pl := w in
    (tt, mkWorld s q a e p u
           (AudioPlayerC.mk (AudioPlayerC.previewUrl pl) b (AudioPlayerC.previewError pl))).
Definition setPreviewError (err : option string) : M unit :=
  fun w => let 'mkWorld s q a e p u pl := w in
    (tt, mkWorld s q a e p u
           (AudioPlayerC.mk (AudioPlayerC.previewUrl pl) (AudioPlayerC.hasGeneratedPreview pl) err)).

Definition pollingRef (w : World) : option Timer := AnalysisHook.pollingRef (analysis w).

(** ** The hooks ([hooks/useAudioAnalysis.ts]) *)

Section Hooks.

(** [API_BASE_URL], read from the environment of the build. *)
Variable API_BASE_URL : string.

Definition getAudioUrl (path : string) : string :=
  if startsWith path "http" then path else (API_BASE_URL ++ path)%string.

(** A reply to a request: the response, or the error the client throws. *)
Definition Reply (A : Type) : Type := (A + ApiError.t)%type.

(** [if (pollingRef.current) { clearInterval(pollingRef.current);
    pollingRef.current = null; }] *)
Definition stopPolling : M unit := setPollingRef None.

(** One run of [poll]: the status request and the handling of its reply. *)
Definition poll (jobId : string) (reply : Reply JobStatusResponse.t) : M unit :=
  send (GET_status jobId) ;;
  match reply with
  | inl status =>
      act (setStatus (JobStatusResponse.status status)) ;;
      act (setProgress (JobStatusResponse.progress status)) ;;
      act (setCurrentStep (JobStatusResponse.current_step status)) ;;
      match ProcessingStatus_eqb (JobStatusResponse.status status) complete,
            JobStatusResponse.result status with
      | true, Some res => act (setResult (Some res)) ;; stopPolling
      | _, res =>
          if ProcessingStatus_eqb (JobStatusResponse.status status) failed
          then
            act (setError
                   (Some (or_else
                            (match res with
                             | Some r => AnalysisResult.error_message r
                             | None => None
                             end)
                            "Processing failed"))) ;;
            stopPolling
          else ret tt
      end
  | inr _ =>
      act (setError (Some "Failed to get job status")) ;; stopPolling
  end.

(** The part of [poll] after [await audioApi.getJobStatus(jobId)]: the
    handling of the reply. Nothing guards it: it runs when the reply
    arrives, whether or not the interval is still installed. *)
Definition handle_reply (reply : Reply JobStatusResponse.t) : M unit :=
  match reply with
  | inl status =>
      act (setStatus (JobStatusResponse.status status)) ;;
      act (setProgress (JobStatusResponse.progress status)) ;;
      act (setCurrentStep (JobStatusResponse.current_step status)) ;;
      match ProcessingStatus_eqb (JobStatusResponse.status status) complete,
            JobStatusResponse.result status with
      | true, Some res => act (setResult (Some res)) ;; stopPolling
      | _, res =>
          if ProcessingStatus_eqb (JobStatusResponse.status status) failed
          then
            act (setError
                   (Some (or_else
                            (match res with
                             | Some r => AnalysisResult.error_message r
                             | None => None
                             end)
                            "Processing failed"))) ;;
            stopPolling
          else ret tt
      end
  | inr _ =>
      act (setError (Some "Failed to get job status")) ;; stopPolling
  end.

(** [pollJobStatus], up to its return: [poll()] is called at once, which
    sends the first status request, and the interval that calls [poll]
    every 2000 ms is installed in [pollingRef], in the place of the
    interval that was there, which is cleared first. The replies arrive
    later (see [on_event]). *)
Definition pollJobStatus (jobId : string) : M unit :=
  send (GET_status jobId) ;; setPollingRef (Some (interval 2000)).

(** [uploadAndAnalyze], up to its return; [pollJobStatus] is not awaited.
    The progress events of the upload only move the local [uploadProgress]
    and are left out. *)
Definition uploadAndAnalyze (file : File.t)
           (upload : Reply UploadResponse.t)
           (analyze : Reply JobStatusResponse.t) : M unit :=
  setIsUploading true ;; setUploadProgress (of_Z 0) ;;
  act (setError None) ;; act (setUploadedFile (Some file)) ;;
  send (POST_upload file) ;;
  match upload with
  | inl uploadResponse =>
      act (setJobId (Some (UploadResponse.job_id uploadResponse))) ;;
      act (setStatus pending) ;;
      send (POST_analyze (UploadResponse.job_id uploadResponse)) ;;
      match analyze with
      | inl _ =>
          act (setStatus processing) ;;
          pollJobStatus (UploadResponse.job_id uploadResponse) ;;
          setIsUploading false
      | inr error =>
          act (setError (Some (error_text error "An error occurred"))) ;;
          act (setStatus failed) ;;
          setIsUploading false
      end
  | inr error =>
      act (setError (Some (error_text error "An error occurred"))) ;;
      act (setStatus failed) ;;
      setIsUploading false
  end.

Definition cancelAnalysis : M unit :=
  stopPolling ;;
  jobId <- gets jobId ;;
  (if truthy jobId then send (DELETE_job (or_else jobId "")) else ret tt) ;;
  act (setJobId None) ;; act (setStatus pending) ;; act (setProgress (of_Z 0)) ;;
  act (setCurrentStep "") ;; act (setResult None) ;; act (setUploadedFile None).

(** [exportAudio]; the download link it clicks is outside the store. *)
Definition exportAudio (filename : option string) (reply : Reply ExportResponse.t)
  : M unit :=
  jobId <- gets jobId ;;
  if negb (truthy jobId) then act (setError (Some "No job to export"))
  else
    setLocalIsExporting true ;; act (setIsExporting true) ;; act (setError None) ;;
    mixConfig <- gets getMixConfig ;;
    send (POST_export (or_else jobId "") mixConfig filename) ;;
    match reply with
    | inl response =>
        act (setExportUrl (Some (getAudioUrl (ExportResponse.download_url response))))
    | inr error =>
        act (setError (Some (error_text error "Export failed")))
    end ;;
    setLocalIsExporting false ;; act (setIsExporting false).

(** [generatePreview(startTime, duration)]: the url of the preview, or
    null. *)
Definition generatePreview (startTime duration : number)
           (reply : Reply PreviewResponse.t) : M (option string) :=
  jobId <- gets jobId ;;
  if negb (truthy jobId) then act (setError (Some "No job to preview")) ;; ret None
  else
    setIsGenerating true ;; act (setError None) ;;
    mixConfig <- gets getMixConfig ;;
    send (POST_preview (or_else jobId "") mixConfig startTime duration) ;;
    r <- match reply with
         | inl response =>
             let url := getAudioUrl (PreviewResponse.preview_url response) in
             setPreviewUrl (Some url) ;; ret (Some url)
         | inr error =>
             act (setError (Some (error_text error "Preview generation failed"))) ;;
             ret None
         end ;;
    setIsGenerating false ;; ret r.

(** ** The player ([AudioPlayer]) *)

(** [handleGeneratePreview]; the player is rendered, and the handler
    exists, only when the store has a result and at least one track.
    [generatePreview] catches every error of the request itself, so the
    [catch] of the handler has nothing to catch. *)
Definition handleGeneratePreview (reply : Reply PreviewResponse.t) : M unit :=
  result <- gets result ;;
  tracks <- gets tracks ;;
  match result, tracks with
  | Some result, _ :: _ =>
      setPreviewError None ;;
      url <- generatePreview (of_Z 0)
               (Math_min [of_Z 60; AnalysisResult.duration_seconds result]) reply ;;
      if truthy url then setPlayerPreviewUrl url ;; setHasGeneratedPreview true
      else setPreviewError (Some "Failed to generate preview. Try exporting directly.")
  | _, _ => ret tt
  end.

(** ** Upload validation ([components/FileUpload.tsx]) *)

Definition ALLOWED_EXTENSIONS : list string :=
  ["mp3"; "wav"; "m4a"; "flac"; "ogg"; "aac"].

(** [file.name.split('.').pop()?.toLowerCase()]. *)
Definition extension (file : File.t) : option string :=
  option_map toLowerCase (pop (split "." (File.name file))).

Definition validateFile (file : File.t) : M bool :=
  let extension := extension file in
  if negb (truthy extension) || negb (includes ALLOWED_EXTENSIONS (or_else extension ""))
  then
    setValidationError
      (Some ("Invalid file type. Allowed: " ++ String.concat ", " ALLOWED_EXTENSIONS)%string) ;;
    ret false
  else if (File.size file >? 500 * 1024 * 1024)%Z
  then
    setValidationError (Some "File too large. Maximum size: 500MB") ;;
    ret false
  else
    setValidationError None ;; ret true.

Definition handleFile (file : File.t)
           (upload : Reply UploadResponse.t)
           (analyze : Reply JobStatusResponse.t) : M unit :=
  ok <- validateFile file ;;
  if ok then uploadAndAnalyze file upload analyze else ret tt.

End Hooks.

(** ** Sequences of track operations *)

(** The four track operations of the store, as the track list of the user
    interface issues them. *)
Inductive TrackOp : Type :=
  | ToggleMute (trackId : string)
  | ToggleSolo (trackId : string)
  | SetVolume (trackId : string) (volume : number)
  | SetMain (trackId : string).

Definition apply_op (s : AppState) (op : TrackOp) : AppState :=
  match op with
  | ToggleMute i => toggleTrackMute i s
  | ToggleSolo i => toggleTrackSolo i s
  | SetVolume i v => setTrackVolume i v s
  | SetMain i => setMainSpeaker i s
  end.

Definition apply_ops (ops : list TrackOp) (s : AppState) : AppState :=
  fold_left apply_op ops s.

(** The number of tracks designated main. *)
Definition main_count (ts : list TrackUIState.t) : nat :=
  List.length (filter TrackUIState.isMain ts).

Definition is_main_count (cs : list TrackConfig.t) : nat :=
  List.length (filter TrackConfig.is_main cs).

(** An operation that sets the volume of track [trackId]. *)
Definition sets_volume_of (trackId : string) (op : TrackOp) : bool :=
  match op with
  | SetVolume i _ => String.eqb i trackId
  | _ => false
  end.


(** The replies on which [poll] clears the interval. *)
Definition stops (reply : Reply JobStatusResponse.t) : bool :=
  match reply with
  | inl status =>
      match JobStatusResponse.status status, JobStatusResponse.result status with
      | complete, Some _ => true
      | failed, _ => true
      | _, _ => false
      end
  | inr _ => true
  end.


(** ** The polling over time *)

(** One polling hook instance over time: the world, whether the interval
    installed by [pollJobStatus] is still running, and the number of status
    requests that were sent and whose reply has not arrived yet. *)
Record Poller : Type := mkPoller {
  world : World;
  running : bool;
  awaited : nat
}.

(** What can happen to it: the interval fires, the reply to a request in
    flight arrives, or the component that called the hook is unmounted. *)
Inductive PollEvent : Type :=
  | Tick
  | Arrive (reply : Reply JobStatusResponse.t)
  | Unmount.

(** [clearInterval(pollingRef.current)] was called between two worlds:
    the handlers call it, and then set [pollingRef.current] to null, only
    when [pollingRef.current] is set. *)
Definition interval_cleared (before after : World) : bool :=
  match pollingRef before, pollingRef after with
  | Some _, None => true
  | _, _ => false
  end.

(** - [Tick]: a running interval calls [poll], which sends a status
      request; a cleared interval does not fire.
    - [Arrive]: when a request is in flight, its reply is handled by the
      rest of [poll], interval or not; the interval stops when the handler
      clears it.
    - [Unmount]: the cleanup of the hook,
      [if (pollingRef.current) clearInterval(pollingRef.current)], which
      leaves [pollingRef.current] as it is. *)
Definition on_event (jobId : string) (p : Poller) (ev : PollEvent) : Poller :=
  match ev with
  | Tick =>
      if running p
      then mkPoller (exec (send (GET_status jobId)) (world p)) true (S (awaited p))
      else p
  | Arrive reply =>
      match awaited p with
      | O => p
      | S n =>
          let w' := exec (handle_reply reply) (world p) in
          mkPoller w' (running p && negb (interval_cleared (world p) w')) n
      end
  | Unmount =>
      mkPoller (world p)
               (match pollingRef (world p) with Some _ => false | None => running p end)
               (awaited p)
  end.

Definition run (jobId : string) (events : list PollEvent) (p : Poller) : Poller :=
  fold_left (on_event jobId) events p.

(** The hook right after [pollJobStatus jobId] returned in world [w]: the
    interval runs and the request of the immediate [poll()] is in flight. *)
Definition start_polling (jobId : string) (w : World) : Poller :=
  mkPoller (exec (pollJobStatus jobId) w) true 1.


(** The number of times the interval may have fired. *)
Definition tick_count (events : list PollEvent) : nat :=
  List.length (filter (fun ev => match ev with Tick => true | _ => false end) events).


(** ** The mixing engine (design document, section 4.3) *)

Module Mixer.
Section Render.

(** Modelled from the spec: the samples of a track's audio artifact in the
    rendered range (the full duration for an export, the window for a
    preview); the Track Store is not part of the sources. *)
Variable samples : Track.t -> list number.

(** Modelled from the spec: the dB-to-linear amplitude conversion
    [10^(db/20)] of step 4. *)
Variable db_to_linear : number -> number.

(** Modelled from the spec: step 7 with [normalize = true], the scaling of
    the summed buffer to the fixed peak target. *)
Variable normalize_peak : list number -> list number.

(** Modelled from the spec: step 7 with [normalize = false], the hard
    clipping of the summed buffer to the representable range. *)
Variable hard_clip : list number -> list number.

(** Modelled from the spec: the parameters of a track without an explicit
    TrackConfig (unmuted, volume 1.0, not main, not solo). *)
Definition default_config (t : Track.t) : TrackConfig.t :=
  {| TrackConfig.track_id := Track.id t;
     TrackConfig.muted := false;
     TrackConfig.solo := false;
     TrackConfig.volume := of_Z 1;
     TrackConfig.is_main := false |}.

(** Modelled from the spec: step 1, the join of the TrackConfig entries of
    the mixer's MixConfig against the tracks of the job. *)
Definition resolve (cfg : MixConfig.t) (t : Track.t) : TrackConfig.t :=
  match find (fun tc => String.eqb (TrackConfig.track_id tc) (Track.id t))
             (MixConfig.tracks cfg) with
  | Some tc => tc
  | None => default_config t
  end.

(** Modelled from the spec: step 2 of the mixer, "any track has
    solo = true", read on the entries of the MixConfig: a track without an
    entry is unsoloed, so only an entry can solo a track. *)
Definition any_solo (cfg : MixConfig.t) : bool :=
  existsb TrackConfig.solo (MixConfig.tracks cfg).

(** Modelled from the spec: step 2 of the mixer, the solo override. With a
    soloed track every track with solo = false is silent; without one the
    muted tracks are silent. *)
Definition silent (cfg : MixConfig.t) (t : Track.t) : bool :=
  if any_solo cfg then negb (TrackConfig.solo (resolve cfg t))
  else TrackConfig.muted (resolve cfg t).

(** Modelled from the spec: the mixer's clamping of a parameter to
    [[lo, hi]]. *)
Definition clamp (lo hi v : number) : number := Math_max [lo; Math_min [hi; v]].

(** Modelled from the spec: the mixer's single main track, the first entry
    marked main in the caller's order. *)
Definition main_track (cfg : MixConfig.t) : option string :=
  option_map TrackConfig.track_id (find TrackConfig.is_main (MixConfig.tracks cfg)).

(** Modelled from the spec: the mixer boosts a track when it is the main
    one. *)
Definition is_boosted (cfg : MixConfig.t) (t : Track.t) : bool :=
  match main_track cfg with
  | Some i => String.eqb i (Track.id t)
  | None => false
  end.

(** Modelled from the spec: the mixer's pure amplitude scale of a
    buffer. *)
Definition scale (g : number) (buf : list number) : list number :=
  map (SFmul 53 1024 g) buf.

(** Modelled from the spec: steps 3 to 5 of the mixer, the volume, the
    main speaker boost after it, and the noise attenuation. *)
Definition track_buffer (cfg : MixConfig.t) (t : Track.t) : list number :=
  let tc := resolve cfg t in
  let b := scale (clamp (of_Z 0) (of_Z 2) (TrackConfig.volume tc)) (samples t) in
  let b := if is_boosted cfg t
           then scale (db_to_linear
                         (clamp (of_Z 0) (of_Z 10) (MixConfig.main_speaker_boost_db cfg))) b
           else b in
  match Track.type t with
  | noise | other =>
      scale (SFsub 53 1024 (of_Z 1)
               (clamp (of_Z 0) (of_Z 1) (MixConfig.noise_reduction_level cfg))) b
  | _ => b
  end.

(** Modelled from the spec: the mixer's sample-wise sum of two buffers. *)
Fixpoint add_buffers (a b : list number) : list number :=
  match a, b with
  | x :: a', y :: b' => SFadd 53 1024 x y :: add_buffers a' b'
  | _, _ => []
  end.

(** Modelled from the spec: step 6 of the mixer, the sample-wise sum of
    time-aligned buffers. *)
Definition sum_buffers (bufs : list (list number)) : list number :=
  match bufs with
  | [] => []
  | b :: rest => fold_left add_buffers rest b
  end.

(** Modelled from the spec: one render of the mixer, steps 1 to 7. *)
Definition render (cfg : MixConfig.t) (job : list Track.t) : list number :=
  let audible := filter (fun t => negb (silent cfg t)) job in
  let mix := sum_buffers (map (track_buffer cfg) audible) in
  if MixConfig.normalize cfg then normalize_peak mix else hard_clip mix.

(** Two TrackConfig entries that differ at most in their muted flag. *)
Definition same_but_muted (a b : TrackConfig.t) : Prop :=
  TrackConfig.track_id a = TrackConfig.track_id b /\
  TrackConfig.solo a = TrackConfig.solo b /\
  TrackConfig.volume a = TrackConfig.volume b /\
  TrackConfig.is_main a = TrackConfig.is_main b.

(** Two MixConfigs that differ at most in the muted flags of their tracks. *)
Definition differ_in_muted_only (a b : MixConfig.t) : Prop :=
  MixConfig.job_id a = MixConfig.job_id b /\
  Forall2 same_but_muted (MixConfig.tracks a) (MixConfig.tracks b) /\
  MixConfig.main_speaker_boost_db a = MixConfig.main_speaker_boost_db b /\
  MixConfig.noise_reduction_level a = MixConfig.noise_reduction_level b /\
  MixConfig.output_format a = MixConfig.output_format b /\
  MixConfig.normalize a = MixConfig.normalize b.

End Render.
End Mixer.

(** ** Sample data *)

Module Sample.

Definition speaker_0 : Track.t :=
  {| Track.id := "speaker_0"; Track.name := "Speaker 1"; Track.type := speaker;
     Track.file_path := "/audio/job/speaker_0.wav";
     Track.duration_seconds := of_Z 10; Track.segments := [];
     Track.waveform_data := None; Track.color := "#3B82F6" |}.

Definition noise_track : Track.t :=
  {| Track.id := "noise"; Track.name := "Background / Noise"; Track.type := noise;
     Track.file_path := "/audio/job/noise.wav";
     Track.duration_seconds := of_Z 10; Track.segments := [];
     Track.waveform_data := None; Track.color := "#6B7280" |}.

(** A second track that carries the id of [speaker_0]. *)
Definition speaker_dup : Track.t :=
  {| Track.id := "speaker_0"; Track.name := "Speaker 2"; Track.type := speaker;
     Track.file_path := "/audio/job/speaker_1.wav";
     Track.duration_seconds := of_Z 10; Track.segments := [];
     Track.waveform_data := None; Track.color := "#10B981" |}.

Definition result_of (ts : list Track.t) : AnalysisResult.t :=
  {| AnalysisResult.job_id := "abc123def456";
     AnalysisResult.status := complete;
     AnalysisResult.original_filename := "talk.mp3";
     AnalysisResult.duration_seconds := of_Z 10;
     AnalysisResult.speaker_count := of_Z 1;
     AnalysisResult.tracks := ts;
     AnalysisResult.created_at := "2024-01-01T00:00:00";
     AnalysisResult.completed_at := Some "2024-01-01T00:01:00";
     AnalysisResult.error_message := None |}.

Definition finished : AnalysisResult.t := result_of [speaker_0; noise_track].

Definition finished_dup : AnalysisResult.t := result_of [speaker_0; speaker_dup].

Definition status_reply (st : ProcessingStatus) (p : Z) (r : option AnalysisResult.t)
  : Reply JobStatusResponse.t :=
  inl {| JobStatusResponse.job_id := "abc123def456";
         JobStatusResponse.status := st;
         JobStatusResponse.progress := of_Z p;
         JobStatusResponse.current_step := "";
         JobStatusResponse.result := r |}.

Definition status_answer (st : ProcessingStatus) (p : Z) (r : option AnalysisResult.t)
  : JobStatusResponse.t :=
  {| JobStatusResponse.job_id := "abc123def456";
     JobStatusResponse.status := st;
     JobStatusResponse.progress := of_Z p;
     JobStatusResponse.current_step := "";
     JobStatusResponse.result := r |}.

Definition world0 : World :=
  {| store := initialState;
     sent := [];
     analysis := AnalysisHook.mk false (of_Z 0) None;
     exporter := ExportHook.mk false;
     preview := PreviewHook.mk None false;
     fileUpload := FileUploadC.mk false None;
     player := AudioPlayerC.mk None false None |}.

(** A world in which the analysis of [finished] has completed. *)
Definition world_done : World :=
  exec (act (setJobId (Some "abc123def456")) ;;
        act (setStatus complete) ;; act (setProgress (of_Z 100)) ;;
        act (setResult (Some finished))) world0.

Definition polling (w : World) : World :=
  exec (setPollingRef (Some (interval 2000))) w.

Definition preview_ok : Reply PreviewResponse.t :=
  inl {| PreviewResponse.preview_url := "/audio/abc123def456/preview.wav";
         PreviewResponse.duration_seconds := of_Z 10 |}.

Definition no_network : ApiError.t :=
  {| ApiError.detail := None; ApiError.message := Some "Network Error" |}.

End Sample.

(** ** Observations the properties are stated with *)

(** The requests a handler sends when run in world [w]. *)
Definition issued {A : Type} (m : M A) (w : World) : list Request :=
  skipn (List.length (sent w)) (sent (exec m w)).

(** The job state of the store. *)
Definition same_job_state (a b : AppState) : Prop :=
  jobId a = jobId b /\ status a = status b /\ progress a = progress b /\
  result a = result b /\ tracks a = tracks b.

Fixpoint contains (c : ascii) (s : string) : bool :=
  match s with
  | EmptyString => false
  | String d s' => Ascii.eqb d c || contains c s'
  end.

(** [e] is the extension of the file name [name] as the validation reads
    it: the text after the last dot, and the whole name when it has no
    dot. *)
Definition is_extension (name e : string) : Prop :=
  contains "." e = false /\
  (name = e \/ exists pre : string, name = (pre ++ String "." e)%string).

(** A file the upload accepts: its extension, lower-cased, is an allowed
    one and its size is at most 500 MB. *)
Definition acceptable (file : File.t) : Prop :=
  exists e : string,
    is_extension (File.name file) e /\
    In (toLowerCase e) ALLOWED_EXTENSIONS /\
    (File.size file <= 500 * 1024 * 1024)%Z.

Module SampleFiles.

Definition talk : File.t := {| File.name := "Talk.final.MP3"; File.size := 1048576 |}.

(** A name without a dot: the whole name is read as the extension. *)
Definition dotless : File.t := {| File.name := "wav"; File.size := 1048576 |}.

Definition notes : File.t := {| File.name := "notes.txt"; File.size := 1024 |}.

Definition huge : File.t := {| File.name := "concert.flac"; File.size := 524288001 |}.

Definition upload_ok : Reply UploadResponse.t :=
  inl {| UploadResponse.job_id := "abc123def456";
         UploadResponse.filename := "Talk.final.MP3";
         UploadResponse.duration_seconds := of_Z 10;
         UploadResponse.sample_rate := of_Z 44100;
         UploadResponse.status := pending;
         UploadResponse.message := "uploaded" |}.

End SampleFiles.

Module SampleMix.

Definition entry (i : string) (m s : bool) : TrackConfig.t :=
  {| TrackConfig.track_id := i;
     TrackConfig.muted := m;
     TrackConfig.solo := s;
     TrackConfig.volume := of_Z 1;
     TrackConfig.is_main := false |}.

Definition config (entries : list TrackConfig.t) : MixConfig.t :=
  {| MixConfig.job_id := "abc123def456";
     MixConfig.tracks := entries;
     MixConfig.main_speaker_boost_db := of_Z 3;
     MixConfig.noise_reduction_level := of_Z 0;
     MixConfig.output_format := wav;
     MixConfig.normalize := false |}.

(** The speaker is soloed; the two configurations differ in the muted
    flags of both tracks. *)
Definition soloed : MixConfig.t :=
  config [entry "speaker_0" false true; entry "noise" false false].

Definition soloed_and_muted : MixConfig.t :=
  config [entry "speaker_0" true true; entry "noise" true false].

Definition job : list Track.t := [Sample.speaker_0; Sample.noise_track].

(** Two samples per track. *)
Definition samples (t : Track.t) : list number :=
  match Track.type t with
  | speaker => [of_Z 1; of_Z 2]
  | _ => [of_Z 4; of_Z 8]
  end.

(** The same speaker over a louder noise. *)
Definition louder_noise (t : Track.t) : list number :=
  match Track.type t with
  | speaker => [of_Z 1; of_Z 2]
  | _ => [of_Z 40; of_Z 80]
  end.

Definition unchanged (buf : list number) : list number := buf.

(** A stand-in for the amplitude conversion; no sample configuration has
    a main track. *)
Definition linear (db : number) : number := SFadd 53 1024 (of_Z 1) db.

End SampleMix.

(** A run of the polling: three requests are in flight when the terminal
    answer arrives, one of them is answered afterwards. *)
Module SamplePolling.

Definition terminal_answer : JobStatusResponse.t :=
  Sample.status_answer complete 100 (Some Sample.finished).

Definition before_terminal : list PollEvent :=
  [Arrive (Sample.status_reply processing 5 None); Tick; Tick; Tick;
   Arrive (Sample.status_reply separating 30 None)].

Definition after_terminal : list PollEvent :=
  [Tick; Arrive (inl terminal_answer); Unmount; Tick].

Definition events : list PollEvent :=
  before_terminal ++ Arrive (inl terminal_answer) :: after_terminal.

End SamplePolling.

(** ** The track manager ([TrackManager]) *)

(** [resetAllTracks]: every track back to the default mix parameters, the
    boost back to 3.0 dB and the noise reduction back to 0. *)
Definition resetAllTracks (s : AppState) : AppState :=
  let tracks := tracks s in
  setNoiseReductionLevel (of_Z 0)
    (setMainSpeakerBoostDb (of_Z 3)
       (setTracks
          (mapi (fun track index => withDefaults (TrackUIState.track track) index) tracks)
          s)).

(** The two lists of track cards. *)
Definition speakerTracks (s : AppState) : list TrackUIState.t :=
  filter (fun t => TrackType_eqb (TrackUIState.type t) speaker) (tracks s).

Definition noiseTracks (s : AppState) : list TrackUIState.t :=
  filter (fun t => TrackType_eqb (TrackUIState.type t) noise
                   || TrackType_eqb (TrackUIState.type t) other) (tracks s).

(** [if (!result || tracks.length === 0) return null], the guard of the
    track manager and of the player. *)
Definition mixer_rendered (s : AppState) : bool :=
  match result s, tracks s with
  | Some _, _ :: _ => true
  | _, _ => false
  end.

(** ** The application shell ([App.tsx]) *)

Definition isProcessing (s : AppState) : bool :=
  existsb (ProcessingStatus_eqb (status s)) [processing; separating; diarizing].

Definition isComplete (s : AppState) : bool :=
  ProcessingStatus_eqb (status s) complete
  && match result s with Some _ => true | None => false end.

(** The three alternatives of the main content: the upload form (with the
    hero and the feature cards), the progress card alone, and the results
    (progress card, track manager, player). *)
Definition showsUpload (s : AppState) : bool :=
  negb (isProcessing s) && negb (isComplete s).
Definition showsProcessing (s : AppState) : bool := isProcessing s.
Definition showsResults (s : AppState) : bool := isComplete s.

(** The part of [cancelAnalysis] that runs after [await deleteJob]. *)
Definition cancelAnalysis_rest : M unit :=
  act (setJobId None) ;; act (setStatus pending) ;; act (setProgress (of_Z 0)) ;;
  act (setCurrentStep "") ;; act (setResult None) ;; act (setUploadedFile None).

(** [handleStartOver]: [cancelAnalysis(); reset();]. [cancelAnalysis] is
    not awaited: with a job id it is suspended at [await deleteJob], so
    [reset] runs before the rest of it; without one it runs to its end
    first. A failing delete is caught and logged. *)
Definition handleStartOver : M unit :=
  stopPolling ;;
  jobId <- gets jobId ;;
  if truthy jobId
  then send (DELETE_job (or_else jobId "")) ;; act reset ;; cancelAnalysis_rest
  else cancelAnalysis_rest ;; act reset.

(** ** The progress card ([components/ProcessingStatus.tsx]) *)

(** [if (!uploadedFile || status === 'pending') return null]. *)
Definition card_rendered (s : AppState) : bool :=
  negb (match uploadedFile s with Some _ => false | None => true end
        || ProcessingStatus_eqb (status s) pending).



Inductive Step : Type := Upload | Separate | Diarize | Finalize.

(** The [done] property of each [ProcessingStep]. *)
Definition step_done (st : Step) (s : AppState) : bool :=
  match st with
  | Upload => gt (progress s) (of_Z 0)
  | Separate => ge (progress s) (of_Z 40)
  | Diarize => ge (progress s) (of_Z 80)
  | Finalize => SFeqb (progress s) (of_Z 100)
  end.

(** The [active] property of each [ProcessingStep]. *)
Definition step_active (st : Step) (s : AppState) : bool :=
  match st with
  | Upload =>
      ProcessingStatus_eqb (status s) processing && lt (progress s) (of_Z 10)
  | Separate =>
      ProcessingStatus_eqb (status s) separating
      || (ProcessingStatus_eqb (status s) processing
          && ge (progress s) (of_Z 10) && lt (progress s) (of_Z 40))
  | Diarize =>
      ProcessingStatus_eqb (status s) diarizing
      || (ProcessingStatus_eqb (status s) processing
          && ge (progress s) (of_Z 40) && lt (progress s) (of_Z 80))
  | Finalize =>
      ge (progress s) (of_Z 80) && lt (progress s) (of_Z 100)
  end.

(** ** The export button of the player ([AudioPlayer]) *)

(** [handleExport]: [exportAudio()] without a file name. *)
Definition handleExport (API_BASE_URL : string) (reply : Reply ExportResponse.t) : M unit :=
  setPreviewError None ;; exportAudio API_BASE_URL None reply.

(** ** More observations *)

(** The volumes a sequence of track operations sets. *)
Fixpoint volumes_set (ops : list TrackOp) : list number :=
  match ops with
  | [] => []
  | SetVolume _ v :: rest => v :: volumes_set rest
  | _ :: rest => volumes_set rest
  end.

(** A volume within [[0, 2]]. *)
Definition in_volume_range (v : number) : bool :=
  le (of_Z 0) v && le v (of_Z 2).

(** No track of the store has the id [trackId]. *)
Definition unknown_id (trackId : string) (s : AppState) : Prop :=
  forall t, In t (tracks s) -> String.eqb (TrackUIState.id t) trackId = false.

Module SampleStates.

(** The store after the sample analysis completed and its tracks were
    adjusted. *)
Definition adjusted : AppState :=
  apply_ops [ToggleMute "noise"; SetVolume "speaker_0" (of_Z 7); ToggleSolo "speaker_0";
             SetMain "noise"]
            (store Sample.world_done).

Definition upload_failed : Reply UploadResponse.t :=
  inr {| ApiError.detail := Some "Unsupported file"; ApiError.message := Some "Request failed" |}.

Definition export_ok : Reply ExportResponse.t :=
  inl {| ExportResponse.download_url := "/audio/abc123def456/exports/mix.wav";
         ExportResponse.filename := "mix.wav";
         ExportResponse.file_size_bytes := of_Z 1024;
         ExportResponse.duration_seconds := of_Z 10;
         ExportResponse.format := "wav" |}.

End SampleStates.

(** The result a status reply makes [poll] install: the one of a reply
    with status complete. *)
Definition installs_result (reply : Reply JobStatusResponse.t) : option AnalysisResult.t :=
  match reply with
  | inl st =>
      match JobStatusResponse.status st with
      | complete => JobStatusResponse.result st
      | _ => None
      end
  | inr _ => None
  end.

(** * Properties *)

(** ** Numbers *)

Lemma SFcompare_refl (x : number) :
  isNaN x = false -> SFcompare x x = Some Eq.
Proof.
  destruct x as [s | s | | s m e]; simpl; intros H; try discriminate.
  - reflexivity.
  - destruct s; reflexivity.
  - rewrite Z.compare_refl, Pos.compare_cont_refl. destruct s; reflexivity.
Qed.


Lemma SFcompare_antisym (x y : number) :
  SFcompare y x = option_map CompOpp (SFcompare x y).
Proof.
  destruct x as [s1 | s1 | | s1 m1 e1], y as [s2 | s2 | | s2 m2 e2]; simpl;
    try reflexivity;
    try (destruct s1; reflexivity);
    try (destruct s2; reflexivity);
    try (destruct s1, s2; reflexivity).
  destruct s1, s2; simpl; try reflexivity;
    rewrite (Z.compare_antisym e1 e2);
    destruct (e1 ?= e2)%Z; simpl; try reflexivity;
    rewrite (Pos.compare_cont_antisym m1 m2 Eq); simpl;
    destruct (Pos.compare_cont Eq m1 m2); reflexivity.
Qed.

(** When neither operand is NaN, [x < y] fails exactly when [y <= x]. *)
Lemma not_lt_le (x y : number) :
  isNaN x = false -> isNaN y = false -> lt x y = false -> le y x = true.
Proof.
  unfold lt, le, SFltb, SFleb. intros Hx Hy.
  rewrite (SFcompare_antisym x y).
  destruct (SFcompare x y) as [[ | | ] | ] eqn:E; simpl; try reflexivity; try discriminate.
  destruct x, y; simpl in *; discriminate.
Qed.

Lemma lt_le (x y : number) : lt x y = true -> le x y = true.
Proof.
  unfold lt, le, SFltb, SFleb.
  destruct (SFcompare x y) as [[ | | ] | ]; congruence.
Qed.

Lemma lt_not_NaN (x y : number) :
  lt x y = true -> isNaN x = false /\ isNaN y = false.
Proof.
  unfold lt, SFltb. destruct x, y; simpl; intros H; try discriminate; split; reflexivity.
Qed.

Lemma le_not_NaN (x y : number) :
  le x y = true -> isNaN x = false /\ isNaN y = false.
Proof.
  unfold le, SFleb. destruct x, y; simpl; intros H; try discriminate; split; reflexivity.
Qed.

(** The code's [Math.max(0, Math.min(2, v))], case by case. *)
Lemma Math_min_two (hi v : number) :
  isNaN hi = false -> is_pos_zero hi = false -> lt hi Infinity = true ->
  Math_min [hi; v] = if isNaN v then NaN else if lt v hi then v else hi.
Proof.
  intros H1 H2 H3. unfold Math_min. simpl.
  rewrite H1, H3, H2, !andb_false_r. reflexivity.
Qed.

Lemma Math_max_zero (m : number) :
  Math_max [of_Z 0; m] = if isNaN m then NaN else if gt m (of_Z 0) then m else of_Z 0.
Proof.
  unfold Math_max. simpl. destruct (isNaN m); [reflexivity|].
  rewrite andb_false_r. reflexivity.
Qed.

Lemma lt_asym (x y : number) : lt x y = true -> lt y x = false.
Proof.
  unfold lt, SFltb. rewrite (SFcompare_antisym x y).
  destruct (SFcompare x y) as [[ | | ] | ]; simpl; congruence.
Qed.

(** The value [setTrackVolume] stores, by the position of the input
    relative to [[0, 2]]. *)
Lemma clamp_volume_cases (v : number) :
  let c := Math_max [of_Z 0; Math_min [of_Z 2; v]] in
  (isNaN v = true -> c = NaN) /\
  (lt v (of_Z 0) = true -> c = of_Z 0) /\
  (gt v (of_Z 2) = true -> c = of_Z 2) /\
  (le (of_Z 0) v = true -> le v (of_Z 2) = true -> SFeqb c v = true).
Proof.
  cbv zeta.
  rewrite (Math_min_two (of_Z 2) v) by reflexivity.
  rewrite Math_max_zero.
  repeat split.
  - intros H. rewrite H. reflexivity.
  - intros H. destruct (lt_not_NaN _ _ H) as [Hn _]. rewrite Hn.
    assert (H2 : lt v (of_Z 2) = true).
    { destruct v as [s | s | | s m e]; try discriminate; destruct s; try discriminate; reflexivity. }
    rewrite H2, Hn. change (gt v (of_Z 0)) with (lt (of_Z 0) v).
    rewrite (lt_asym _ _ H). reflexivity.
  - change (gt v (of_Z 2)) with (lt (of_Z 2) v).
    intros H. destruct (lt_not_NaN _ _ H) as [_ Hn]. rewrite Hn.
    rewrite (lt_asym _ _ H). reflexivity.
  - intros H0 H2. destruct (le_not_NaN _ _ H0) as [_ Hn]. rewrite Hn.
    destruct (lt v (of_Z 2)) eqn:Hlt.
    + rewrite Hn. change (gt v (of_Z 0)) with (lt (of_Z 0) v).
      destruct (lt (of_Z 0) v) eqn:Hpos.
      * unfold SFeqb. rewrite SFcompare_refl by assumption. reflexivity.
      * destruct v as [s | s | | s m e]; try discriminate; try reflexivity;
          destruct s; discriminate.
    + change (isNaN (of_Z 2)) with false. cbv iota.
      change (gt (of_Z 2) (of_Z 0)) with true. cbv iota.
      unfold SFeqb. rewrite (SFcompare_antisym v (of_Z 2)).
      unfold le, SFleb in H2. unfold lt, SFltb in Hlt.
      destruct (SFcompare v (of_Z 2)) as [[ | | ] | ]; try discriminate; reflexivity.
Qed.

(** ** The store *)

Lemma tracks_set_tracks (ts : list TrackUIState.t) (s : AppState) :
  tracks (set [F_tracks ts] s) = ts.
Proof. destruct s; reflexivity. Qed.

Lemma set_tracks_twice (a b : list TrackUIState.t) (s : AppState) :
  set [F_tracks a] (set [F_tracks b] s) = set [F_tracks a] s.
Proof. destruct s; reflexivity. Qed.

Lemma set_tracks_same (s : AppState) : set [F_tracks (tracks s)] s = s.
Proof. destruct s; reflexivity. Qed.

(** A track operation writes the track list and nothing else. *)
Lemma apply_op_only_tracks (op : TrackOp) (s : AppState) :
  apply_op s op = set [F_tracks (tracks (apply_op s op))] s.
Proof.
  destruct op; simpl;
    unfold toggleTrackMute, toggleTrackSolo, setTrackVolume, setMainSpeaker;
    rewrite tracks_set_tracks; reflexivity.
Qed.

Lemma apply_ops_only_tracks (ops : list TrackOp) (s : AppState) :
  apply_ops ops s = set [F_tracks (tracks (apply_ops ops s))] s.
Proof.
  revert s. induction ops as [| op ops IH]; intros s; simpl.
  - symmetry. apply set_tracks_same.
  - unfold apply_ops in *. simpl. rewrite (IH (apply_op s op)) at 1.
    rewrite (apply_op_only_tracks op s) at 2.
    apply set_tracks_twice.
Qed.

Lemma nth_error_mapi_from {A B : Type} (f : A -> nat -> B) (l : list A) (k i : nat) :
  nth_error (mapi_from k f l) i = option_map (fun x => f x (k + i)) (nth_error l i).
Proof.
  revert k i. induction l as [| x l IH]; intros k i.
  - destruct i; reflexivity.
  - destruct i; simpl.
    + rewrite Nat.add_0_r. reflexivity.
    + rewrite IH. replace (S k + i) with (k + S i) by lia. reflexivity.
Qed.

Lemma tracks_setResult (res : AnalysisResult.t) (s : AppState) :
  tracks (setResult (Some res) s) = mapi withDefaults (AnalysisResult.tracks res).
Proof. destruct s; reflexivity. Qed.

(** The ids of the tracks, in order, are those of the result and no track
    operation changes them. *)
Lemma ids_apply_op (op : TrackOp) (s : AppState) :
  map TrackUIState.id (tracks (apply_op s op)) = map TrackUIState.id (tracks s).
Proof.
  destruct op; simpl;
    unfold toggleTrackMute, toggleTrackSolo, setTrackVolume, setMainSpeaker;
    rewrite tracks_set_tracks, map_map; apply map_ext; intros t;
    try (destruct (String.eqb (TrackUIState.id t) trackId)); reflexivity.
Qed.

Lemma ids_mapi_from (k : nat) (l : list Track.t) :
  map TrackUIState.id (mapi_from k withDefaults l) = map Track.id l.
Proof.
  revert k. induction l as [| x l IH]; intros k; simpl; [reflexivity|].
  rewrite IH. reflexivity.
Qed.

Lemma isMain_mapi_from_S (k : nat) (l : list Track.t) :
  filter TrackUIState.isMain (mapi_from (S k) withDefaults l) = [].
Proof.
  revert k. induction l as [| x l IH]; intros k; simpl; [reflexivity|]. apply IH.
Qed.

Lemma track_mapi_from (k : nat) (l : list Track.t) :
  map TrackUIState.track (mapi_from k withDefaults l) = l.
Proof.
  revert k. induction l as [| x l IH]; intros k; simpl; [reflexivity|].
  rewrite IH. reflexivity.
Qed.

Lemma not_main_mapi_from_S (k : nat) (l : list Track.t) :
  map TrackUIState.isMain (mapi_from (S k) withDefaults l) = map (fun _ => false) l.
Proof.
  revert k. induction l as [| x l IH]; intros k; simpl; [reflexivity|].
  rewrite IH. reflexivity.
Qed.

Lemma defaults_mapi_from (k : nat) (l : list Track.t) :
  Forall (fun t => TrackUIState.muted t = false /\
                   TrackUIState.solo t = false /\
                   TrackUIState.volume t = of_Z 1)
         (mapi_from k withDefaults l).
Proof.
  revert k. induction l as [| x l IH]; intros k; simpl.
  - constructor.
  - constructor; [repeat split | apply IH].
Qed.

Lemma main_count_setResult (res : AnalysisResult.t) (s : AppState) :
  main_count (tracks (setResult (Some res) s)) <= 1.
Proof.
  rewrite tracks_setResult. unfold main_count, mapi.
  destruct (AnalysisResult.tracks res) as [| x l]; simpl; [lia|].
  destruct (TrackType_eqb (Track.type x) speaker); simpl;
    rewrite isMain_mapi_from_S; simpl; lia.
Qed.

Lemma count_id_NoDup (i : string) (ts : list TrackUIState.t) :
  NoDup (map TrackUIState.id ts) ->
  List.length (filter (fun t => String.eqb (TrackUIState.id t) i) ts) <= 1.
Proof.
  induction ts as [| t ts IH]; simpl; intros H; [lia|].
  inversion H as [| ? ? Hnotin Hnd]; subst.
  destruct (String.eqb (TrackUIState.id t) i) eqn:E; [| apply IH; assumption].
  apply String.eqb_eq in E. simpl.
  assert (Hnil : filter (fun t0 => String.eqb (TrackUIState.id t0) i) ts = []).
  { destruct (filter (fun t0 => String.eqb (TrackUIState.id t0) i) ts) as [| u us] eqn:F;
      [reflexivity|].
    exfalso. apply Hnotin.
    assert (Hin : In u (filter (fun t0 => String.eqb (TrackUIState.id t0) i) ts))
      by (rewrite F; left; reflexivity).
    apply filter_In in Hin. destruct Hin as [Hin Hi].
    apply String.eqb_eq in Hi. rewrite E, <- Hi. apply in_map. assumption. }
  rewrite Hnil. simpl. lia.
Qed.

Lemma filter_map_comm {A B : Type} (f : A -> B) (p : B -> bool) (l : list A) :
  filter p (map f l) = map f (filter (fun x => p (f x)) l).
Proof.
  induction l as [| x l IH]; simpl; [reflexivity|].
  destruct (p (f x)); simpl; rewrite IH; reflexivity.
Qed.

Lemma main_count_apply_op (op : TrackOp) (s : AppState) :
  NoDup (map TrackUIState.id (tracks s)) ->
  main_count (tracks s) <= 1 ->
  main_count (tracks (apply_op s op)) <= 1.
Proof.
  intros Hnd Hc. unfold main_count in *.
  destruct op; simpl;
    unfold toggleTrackMute, toggleTrackSolo, setTrackVolume, setMainSpeaker;
    rewrite tracks_set_tracks, filter_map_comm, length_map.
  1-3: erewrite filter_ext;
    [exact Hc
    | intros t; simpl; destruct (String.eqb (TrackUIState.id t) trackId); reflexivity].
  simpl. apply count_id_NoDup. assumption.
Qed.

Lemma is_main_count_getMixConfig (s : AppState) :
  is_main_count (MixConfig.tracks (getMixConfig s)) = main_count (tracks s).
Proof.
  unfold is_main_count, main_count, getMixConfig. simpl.
  rewrite filter_map_comm, length_map. reflexivity.
Qed.

(** C10. [reset] puts the store back into [initialState], whatever the
    state before: no uploaded file, no job id, status pending, progress 0,
    no tracks, boost 3.0 dB, noise reduction 0, format wav, normalize on, no
    error. It is therefore idempotent, and the MixConfig read after it is
    the default one, with no trace of earlier adjustments. *)
Theorem reset_restores_initialState :
  forall s : AppState,
    reset s = initialState /\
    reset (reset s) = reset s /\
    uploadedFile (reset s) = None /\
    jobId (reset s) = None /\
    status (reset s) = pending /\
    progress (reset s) = of_Z 0 /\
    tracks (reset s) = [] /\
    mainSpeakerBoostDb (reset s) = of_Z 3 /\
    noiseReductionLevel (reset s) = of_Z 0 /\
    outputFormat (reset s) = wav /\
    normalize (reset s) = true /\
    error (reset s) = None /\
    getMixConfig (reset s) =
      {| MixConfig.job_id := "";
         MixConfig.tracks := [];
         MixConfig.main_speaker_boost_db := of_Z 3;
         MixConfig.noise_reduction_level := of_Z 0;
         MixConfig.output_format := wav;
         MixConfig.normalize := true |}.
Proof.
  intros s.
  assert (H : reset s = initialState) by (destruct s; reflexivity).
  rewrite !H. repeat split; reflexivity.
Qed.

(** C5, as stated, fails: the setters keep a boost of 11 dB and a noise
    reduction level of 2, and [getMixConfig] carries them. *)
Lemma setters_do_not_clamp :
  le (MixConfig.main_speaker_boost_db
        (getMixConfig (setMainSpeakerBoostDb (of_Z 11) initialState))) (of_Z 10) = false /\
  le (MixConfig.noise_reduction_level
        (getMixConfig (setNoiseReductionLevel (of_Z 2) initialState))) (of_Z 1) = false.
Proof. split; reflexivity. Qed.

(** C5, amended. [setMainSpeakerBoostDb] and [setNoiseReductionLevel] store
    their argument as it is, and [getMixConfig] carries the stored values as
    they are, also after any track operations: the boost and the level of a
    MixConfig are the last values passed to the setters, whatever they were. *)
Theorem mix_globals_are_stored_unchanged :
  forall (db level : number) (ops : list TrackOp) (s : AppState),
    MixConfig.main_speaker_boost_db
      (getMixConfig (apply_ops ops (setMainSpeakerBoostDb db s))) = db /\
    MixConfig.noise_reduction_level
      (getMixConfig (apply_ops ops (setNoiseReductionLevel level s))) = level /\
    MixConfig.main_speaker_boost_db
      (getMixConfig (setNoiseReductionLevel level (setMainSpeakerBoostDb db s))) = db /\
    MixConfig.noise_reduction_level
      (getMixConfig (setMainSpeakerBoostDb db (setNoiseReductionLevel level s))) = level.
Proof.
  intros db level ops s. repeat split.
  - rewrite apply_ops_only_tracks. destruct s; reflexivity.
  - rewrite apply_ops_only_tracks. destruct s; reflexivity.
  - destruct s; reflexivity.
  - destruct s; reflexivity.
Qed.

(** C4, as stated, fails: the first track of the sample result is a speaker
    and [setResult] makes it main. *)
Lemma setResult_marks_first_speaker_main :
  map TrackUIState.isMain (tracks (setResult (Some Sample.finished) initialState))
  = [true; false].
Proof. reflexivity. Qed.

(** C4, amended. [setResult] turns the tracks of the result, in order, into
    UI tracks that are unmuted, unsoloed and at volume 1.0; the track at
    index 0 is main exactly when its type is speaker, and no other track is
    main. *)
Theorem setResult_defaults :
  forall (res : AnalysisResult.t) (s : AppState),
    let ts := tracks (setResult (Some res) s) in
    map TrackUIState.track ts = AnalysisResult.tracks res /\
    Forall (fun t => TrackUIState.muted t = false /\
                     TrackUIState.solo t = false /\
                     TrackUIState.volume t = of_Z 1) ts /\
    map TrackUIState.isMain ts =
      match AnalysisResult.tracks res with
      | [] => []
      | first :: rest =>
          TrackType_eqb (Track.type first) speaker :: map (fun _ => false) rest
      end.
Proof.
  intros res s. cbv zeta. rewrite tracks_setResult. unfold mapi.
  split; [apply track_mapi_from|]. split; [apply defaults_mapi_from|].
  destruct (AnalysisResult.tracks res) as [| x l]; simpl; [reflexivity|].
  rewrite not_main_mapi_from_S. reflexivity.
Qed.

Lemma main_count_apply_ops (ops : list TrackOp) (s : AppState) :
  NoDup (map TrackUIState.id (tracks s)) ->
  main_count (tracks s) <= 1 ->
  main_count (tracks (apply_ops ops s)) <= 1.
Proof.
  revert s. induction ops as [| op ops IH]; intros s Hnd Hc; simpl; [assumption|].
  apply IH.
  - rewrite ids_apply_op. assumption.
  - apply main_count_apply_op; assumption.
Qed.

(** C2, as stated, fails: when two tracks of the result carry the same id,
    [setMainSpeaker] with that id designates both as main, and the MixConfig
    has two entries with [is_main = true]. *)
Lemma duplicate_id_two_mains :
  main_count
    (tracks (apply_ops [SetMain "speaker_0"]
               (setResult (Some Sample.finished_dup) initialState))) = 2 /\
  is_main_count
    (MixConfig.tracks
       (getMixConfig (apply_ops [SetMain "speaker_0"]
                        (setResult (Some Sample.finished_dup) initialState)))) = 2.
Proof. split; reflexivity. Qed.

(** C2, amended. When the tracks of the result have pairwise distinct ids,
    every store state reached from [setResult] by the track operations
    (mute, solo, volume, main speaker) has at most one main track, and the
    MixConfig read from it has at most one entry with [is_main = true]. *)
Theorem at_most_one_main :
  forall (res : AnalysisResult.t) (ops : list TrackOp) (s0 : AppState),
    NoDup (map Track.id (AnalysisResult.tracks res)) ->
    main_count (tracks (apply_ops ops (setResult (Some res) s0))) <= 1 /\
    is_main_count
      (MixConfig.tracks (getMixConfig (apply_ops ops (setResult (Some res) s0)))) <= 1.
Proof.
  intros res ops s0 Hnd.
  assert (H : main_count (tracks (apply_ops ops (setResult (Some res) s0))) <= 1).
  { apply main_count_apply_ops.
    - rewrite tracks_setResult. unfold mapi. rewrite ids_mapi_from. assumption.
    - apply main_count_setResult. }
  split; [assumption|]. rewrite is_main_count_getMixConfig. assumption.
Qed.

Lemma at_most_one_main_witness :
  NoDup (map Track.id (AnalysisResult.tracks Sample.finished)) /\
  main_count
    (tracks (apply_ops [SetMain "noise"; ToggleSolo "speaker_0"; SetMain "speaker_0"]
               (setResult (Some Sample.finished) initialState))) <= 1 /\
  is_main_count
    (MixConfig.tracks
       (getMixConfig
          (apply_ops [SetMain "noise"; ToggleSolo "speaker_0"; SetMain "speaker_0"]
             (setResult (Some Sample.finished) initialState)))) <= 1.
Proof.
  assert (H : NoDup (map Track.id (AnalysisResult.tracks Sample.finished))).
  { simpl. repeat constructor; simpl; intuition discriminate. }
  split; [exact H|].
  apply (at_most_one_main Sample.finished
           [SetMain "noise"; ToggleSolo "speaker_0"; SetMain "speaker_0"]
           initialState H).
Defined.

(** A track operation keeps every track at its index, with its id, and with
    its volume unless the operation sets the volume of that id. *)
Lemma nth_apply_op (op : TrackOp) (s : AppState) (i : nat) (t : TrackUIState.t) :
  nth_error (tracks s) i = Some t ->
  exists t',
    nth_error (tracks (apply_op s op)) i = Some t' /\
    TrackUIState.id t' = TrackUIState.id t /\
    (sets_volume_of (TrackUIState.id t) op = false ->
     TrackUIState.volume t' = TrackUIState.volume t).
Proof.
  intros H.
  destruct op; simpl;
    unfold toggleTrackMute, toggleTrackSolo, setTrackVolume, setMainSpeaker;
    rewrite tracks_set_tracks, nth_error_map, H; simpl;
    eexists; (split; [reflexivity|]);
    try (rewrite (String.eqb_sym trackId (TrackUIState.id t)));
    try (destruct (String.eqb (TrackUIState.id t) trackId));
    split; try reflexivity; intros; try reflexivity; discriminate.
Qed.

Lemma nth_apply_ops (ops : list TrackOp) (s : AppState) (i : nat) (t : TrackUIState.t) :
  nth_error (tracks s) i = Some t ->
  existsb (sets_volume_of (TrackUIState.id t)) ops = false ->
  exists t',
    nth_error (tracks (apply_ops ops s)) i = Some t' /\
    TrackUIState.id t' = TrackUIState.id t /\
    TrackUIState.volume t' = TrackUIState.volume t.
Proof.
  revert s t. induction ops as [| op ops IH]; intros s t H Hops; simpl in *.
  - exists t. repeat split. assumption.
  - apply orb_false_elim in Hops. destruct Hops as [Hop Hops].
    destruct (nth_apply_op op s i t H) as [t1 [H1 [Hid Hvol]]].
    destruct (IH (apply_op s op) t1 H1) as [t2 [H2 [Hid2 Hvol2]]].
    + rewrite Hid. assumption.
    + exists t2. split; [exact H2|]. split.
      * rewrite Hid2. exact Hid.
      * rewrite Hvol2. apply Hvol. assumption.
Qed.

(** C3. [setTrackVolume trackId v] stores, for every track with that id,
    the volume [Math.max(0, Math.min(2, v))], and every MixConfig read
    afterwards carries it for that track until its volume is set again.
    The stored value is the clamped one: 0 for an input below 0, 2 for an
    input above 2, the input itself (up to the sign of zero) for an input
    in [0, 2]; NaN, which is neither, is stored as NaN. The input is never
    rejected: the track stays at its index with its id. *)
Theorem setTrackVolume_clamps :
  forall (trackId : string) (v : number) (s : AppState) (ops : list TrackOp)
         (i : nat) (t : TrackUIState.t),
    nth_error (tracks s) i = Some t ->
    TrackUIState.id t = trackId ->
    existsb (sets_volume_of trackId) ops = false ->
    exists applied : number,
      applied = Math_max [of_Z 0; Math_min [of_Z 2; v]] /\
      (exists t',
          nth_error (tracks (setTrackVolume trackId v s)) i = Some t' /\
          TrackUIState.id t' = trackId /\
          TrackUIState.volume t' = applied) /\
      (exists c,
          nth_error
            (MixConfig.tracks
               (getMixConfig (apply_ops ops (setTrackVolume trackId v s)))) i = Some c /\
          TrackConfig.track_id c = trackId /\
          TrackConfig.volume c = applied) /\
      (lt v (of_Z 0) = true -> applied = of_Z 0) /\
      (gt v (of_Z 2) = true -> applied = of_Z 2) /\
      (le (of_Z 0) v = true -> le v (of_Z 2) = true -> SFeqb applied v = true) /\
      (isNaN v = true -> applied = NaN).
Proof.
  intros trackId v s ops i t Hnth Hid Hops.
  exists (Math_max [of_Z 0; Math_min [of_Z 2; v]]).
  assert (Hset : exists t',
             nth_error (tracks (setTrackVolume trackId v s)) i = Some t' /\
             TrackUIState.id t' = trackId /\
             TrackUIState.volume t' = Math_max [of_Z 0; Math_min [of_Z 2; v]]).
  { unfold setTrackVolume. rewrite tracks_set_tracks, nth_error_map, Hnth. simpl.
    rewrite Hid, String.eqb_refl. eexists. split; [reflexivity|].
    split; [exact Hid | reflexivity]. }
  destruct (clamp_volume_cases v) as [Hnan [Hlow [Hhigh Hmid]]].
  split; [reflexivity|].
  split; [exact Hset|].
  split; [| repeat split; assumption].
  destruct Hset as [t1 [H1 [Hid1 Hvol1]]].
  destruct (nth_apply_ops ops _ i t1 H1) as [t2 [H2 [Hid2 Hvol2]]].
  { rewrite Hid1. assumption. }
  unfold getMixConfig. cbn [MixConfig.tracks]. rewrite nth_error_map, H2.
  cbn [option_map]. eexists. split; [reflexivity|].
  cbn [TrackConfig.track_id TrackConfig.volume].
  split; [rewrite Hid2; exact Hid1 | rewrite Hvol2; exact Hvol1].
Qed.

Lemma setTrackVolume_clamps_witness :
  nth_error (tracks (setResult (Some Sample.finished) initialState)) 1
  = Some (withDefaults Sample.noise_track 1) /\
  exists applied : number,
    applied = Math_max [of_Z 0; Math_min [of_Z 2; of_Z 5]] /\
    (exists t',
        nth_error (tracks (setTrackVolume "noise" (of_Z 5)
                             (setResult (Some Sample.finished) initialState))) 1 = Some t' /\
        TrackUIState.id t' = "noise" /\
        TrackUIState.volume t' = applied) /\
    (exists c,
        nth_error
          (MixConfig.tracks
             (getMixConfig
                (apply_ops [ToggleMute "noise"; SetVolume "speaker_0" (of_Z 1); SetMain "noise"]
                   (setTrackVolume "noise" (of_Z 5)
                      (setResult (Some Sample.finished) initialState))))) 1 = Some c /\
        TrackConfig.track_id c = "noise" /\
        TrackConfig.volume c = applied) /\
    (lt (of_Z 5) (of_Z 0) = true -> applied = of_Z 0) /\
    (gt (of_Z 5) (of_Z 2) = true -> applied = of_Z 2) /\
    (le (of_Z 0) (of_Z 5) = true -> le (of_Z 5) (of_Z 2) = true ->
     SFeqb applied (of_Z 5) = true) /\
    (isNaN (of_Z 5) = true -> applied = NaN).
Proof.
  split; [reflexivity|].
  apply (setTrackVolume_clamps "noise" (of_Z 5)
           (setResult (Some Sample.finished) initialState)
           [ToggleMute "noise"; SetVolume "speaker_0" (of_Z 1); SetMain "noise"]
           1 (withDefaults Sample.noise_track 1));
    reflexivity.
Defined.

(** ** Upload validation *)

Lemma split_nonempty (sep : ascii) (s : string) : split sep s <> [].
Proof.
  destruct s as [| c s]; simpl; [discriminate|].
  destruct (Ascii.eqb c sep); [discriminate|].
  destruct (split sep s); discriminate.
Qed.

Lemma pop_cons {A : Type} (x : A) (l : list A) :
  l <> [] -> pop (x :: l) = pop l.
Proof. destruct l; [congruence | reflexivity]. Qed.

Lemma split_no_sep (sep : ascii) (s : string) :
  contains sep s = false -> split sep s = [s].
Proof.
  induction s as [| c s IH]; simpl; intros H; [reflexivity|].
  apply orb_false_elim in H. destruct H as [Hc Hs].
  rewrite Hc, (IH Hs). reflexivity.
Qed.

Lemma split_length_sep (sep : ascii) (pre e : string) :
  2 <= List.length (split sep (pre ++ String sep e)).
Proof.
  induction pre as [| c pre IH]; simpl.
  - rewrite Ascii.eqb_refl. simpl.
    destruct (split sep e) eqn:E; [exfalso; exact (split_nonempty _ _ E) | simpl; lia].
  - destruct (Ascii.eqb c sep); simpl; [lia|].
    destruct (split sep (pre ++ String sep e)); simpl in *; lia.
Qed.

Lemma pop_split_after_sep (sep : ascii) (pre e : string) :
  pop (split sep (pre ++ String sep e)) = pop (split sep e).
Proof.
  induction pre as [| c pre IH]; simpl.
  - rewrite Ascii.eqb_refl. apply pop_cons, split_nonempty.
  - destruct (Ascii.eqb c sep).
    + rewrite pop_cons by apply split_nonempty. exact IH.
    + pose proof (split_length_sep sep pre e) as Hlen.
      destruct (split sep (pre ++ String sep e)) as [| h [| h' t]];
        simpl in Hlen; try lia.
      exact IH.
Qed.

(** [split('.').pop()] returns the extension in the sense of
    [is_extension], and only that. *)
Lemma pop_split_is_extension (name : string) :
  exists e, pop (split "." name) = Some e /\ is_extension name e.
Proof.
  induction name as [| c name IH].
  - exists "". split; [reflexivity|]. split; [reflexivity | left; reflexivity].
  - destruct IH as [e [Hpop [Hnodot Hshape]]]. simpl.
    destruct (Ascii.eqb c ".") eqn:Hc.
    + apply Ascii.eqb_eq in Hc. subst c.
      exists e. split; [rewrite pop_cons by apply split_nonempty; exact Hpop|].
      split; [exact Hnodot|]. right.
      destruct Hshape as [-> | [pre ->]].
      * exists "". reflexivity.
      * exists (String "." pre). reflexivity.
    + destruct Hshape as [-> | [pre ->]].
      * rewrite (split_no_sep "." e Hnodot) in *. simpl in Hpop.
        exists (String c e). split; [reflexivity|]. split.
        -- simpl. rewrite Hc. exact Hnodot.
        -- left. reflexivity.
      * pose proof (split_length_sep "." pre e) as Hlen.
        destruct (split "." (pre ++ String "." e)) as [| h [| h' t]] eqn:E;
          simpl in Hlen; try lia.
        exists e. split; [exact Hpop|]. split; [exact Hnodot|].
        right. exists (String c pre). reflexivity.
Qed.

Lemma is_extension_pop_split (name e : string) :
  is_extension name e -> pop (split "." name) = Some e.
Proof.
  intros [Hnodot [-> | [pre ->]]].
  - rewrite (split_no_sep _ _ Hnodot). reflexivity.
  - rewrite pop_split_after_sep, (split_no_sep _ _ Hnodot). reflexivity.
Qed.

Lemma includes_In (l : list string) (x : string) :
  includes l x = true <-> In x l.
Proof.
  unfold includes. rewrite existsb_exists. split.
  - intros [y [Hin Heq]]. apply String.eqb_eq in Heq. subst. assumption.
  - intros Hin. exists x. split; [assumption | apply String.eqb_refl].
Qed.

(** The check of [validateFile], as a boolean. *)
Lemma validateFile_accepts (file : File.t) (w : World) :
  fst (validateFile file w) = true <-> acceptable file.
Proof.
  unfold validateFile, extension, acceptable.
  destruct (pop_split_is_extension (File.name file)) as [e [Hpop Hext]].
  rewrite Hpop. cbn [option_map].
  split.
  - intros H. exists e. split; [exact Hext|].
    destruct (truthy (Some (toLowerCase e))) eqn:Ht; cbn [negb orb] in H;
      [| destruct w; discriminate H].
    destruct (includes ALLOWED_EXTENSIONS (or_else (Some (toLowerCase e)) "")) eqn:Hi;
      cbn [negb] in H; [| destruct w; discriminate H].
    destruct (File.size file >? 500 * 1024 * 1024)%Z eqn:Hs; [destruct w; discriminate H|].
    split; [| lia].
    apply includes_In.
    destruct (toLowerCase e); [discriminate Ht | exact Hi].
  - intros [e' [Hext' [Hin Hsize]]].
    rewrite (is_extension_pop_split _ _ Hext') in Hpop.
    injection Hpop as <-.
    assert (Hne : truthy (Some (toLowerCase e')) = true).
    { destruct (toLowerCase e'); [| reflexivity].
      simpl in Hin. intuition discriminate. }
    rewrite Hne. cbn [negb orb].
    assert (Hi : includes ALLOWED_EXTENSIONS (or_else (Some (toLowerCase e')) "") = true).
    { apply includes_In. destruct (toLowerCase e'); [discriminate Hne | exact Hin]. }
    rewrite Hi. cbn [negb].
    assert (Hs : (File.size file >? 500 * 1024 * 1024)%Z = false) by lia.
    rewrite Hs. destruct w; reflexivity.
Qed.

(** ** Requests *)

Lemma skipn_length_app {A : Type} (a b : list A) :
  skipn (List.length a) (a ++ b) = b.
Proof. induction a as [| x a IH]; simpl; [reflexivity | exact IH]. Qed.

Lemma issued_of_sent {A : Type} (m : M A) (w : World) (new : list Request) :
  sent (exec m w) = sent w ++ new -> issued m w = new.
Proof. unfold issued. intros ->. apply skipn_length_app. Qed.

Lemma sent_poll (jobId : string) (reply : Reply JobStatusResponse.t) (w : World) :
  sent (exec (poll jobId reply) w) = sent w ++ [GET_status jobId].
Proof.
  destruct w as [s q a e p u pl], a as [up pr ref].
  destruct reply as [st | err]; [| reflexivity].
  unfold poll.
  destruct (ProcessingStatus_eqb (JobStatusResponse.status st) complete) eqn:E1;
    destruct (JobStatusResponse.result st) as [res |] eqn:E2;
    destruct (ProcessingStatus_eqb (JobStatusResponse.status st) failed) eqn:E3;
    unfold exec, bind, send, act, stopPolling, setPollingRef, ret; simpl;
    rewrite ?E1, ?E2, ?E3; reflexivity.
Qed.

Lemma sent_uploadAndAnalyze (file : File.t) (up : Reply UploadResponse.t)
      (an : Reply JobStatusResponse.t) (w : World) :
  exists rest,
    sent (exec (uploadAndAnalyze file up an) w)
    = sent w ++ POST_upload file :: rest.
Proof.
  destruct w as [s q a e p u pl], a as [upl pr ref].
  destruct up as [ur | err]; [destruct an as [ok | err] |].
  - exists [POST_analyze (UploadResponse.job_id ur); GET_status (UploadResponse.job_id ur)].
    unfold uploadAndAnalyze, pollJobStatus, exec, bind, send, act, setIsUploading,
      setUploadProgress, setPollingRef, ret. cbn. rewrite <- !app_assoc. reflexivity.
  - exists [POST_analyze (UploadResponse.job_id ur)].
    unfold uploadAndAnalyze, exec, bind, send, act, setIsUploading,
      setUploadProgress, ret. cbn. rewrite <- app_assoc. reflexivity.
  - exists []. reflexivity.
Qed.

Lemma validateFile_world (file : File.t) (w : World) :
  sent (snd (validateFile file w)) = sent w /\
  store (snd (validateFile file w)) = store w /\
  (fst (validateFile file w) = false ->
   FileUploadC.validationError (fileUpload (snd (validateFile file w))) <> None).
Proof.
  destruct w as [s q a e p u pl]. unfold validateFile.
  destruct (negb (truthy (extension file)) ||
            negb (includes ALLOWED_EXTENSIONS (or_else (extension file) ""))).
  - repeat split; discriminate.
  - destruct (File.size file >? 500 * 1024 * 1024)%Z.
    + repeat split; discriminate.
    + repeat split; discriminate.
Qed.

(** C9. A file handed to [handleFile] is uploaded exactly when it is
    acceptable: its extension (the text after the last dot of its name, the
    whole name when there is no dot), lower-cased, is one of mp3, wav, m4a,
    flac, ogg, aac, and its size is at most 500 * 1024 * 1024 bytes. Then
    the first request sent is the upload of that file. Otherwise no request
    is sent, the store is untouched, and a validation error is set. *)
Theorem handleFile_uploads_iff_acceptable :
  forall (file : File.t) (up : Reply UploadResponse.t) (an : Reply JobStatusResponse.t) (w : World),
    (acceptable file <->
     hd_error (issued (handleFile file up an) w) = Some (POST_upload file)) /\
    (~ acceptable file ->
     issued (handleFile file up an) w = [] /\
     store (exec (handleFile file up an) w) = store w /\
     FileUploadC.validationError
       (fileUpload (exec (handleFile file up an) w)) <> None).
Proof.
  intros file up an w.
  pose proof (validateFile_accepts file w) as Hacc.
  destruct (validateFile_world file w) as [Hsent [Hstore Herr]].
  assert (Hexec : exec (handleFile file up an) w =
                  if fst (validateFile file w)
                  then exec (uploadAndAnalyze file up an) (snd (validateFile file w))
                  else snd (validateFile file w)).
  { unfold handleFile, exec, bind. destruct (validateFile file w) as [ok w1].
    destruct ok; reflexivity. }
  destruct (fst (validateFile file w)) eqn:Hok.
  - destruct (sent_uploadAndAnalyze file up an (snd (validateFile file w)))
      as [rest Hrest].
    assert (Hiss : issued (handleFile file up an) w = POST_upload file :: rest).
    { apply issued_of_sent. rewrite Hexec, Hrest, Hsent. reflexivity. }
    rewrite Hiss. split.
    + split; [reflexivity | intros _; apply Hacc; reflexivity].
    + intros Hn. exfalso. apply Hn, Hacc. reflexivity.
  - assert (Hiss : issued (handleFile file up an) w = []).
    { apply issued_of_sent. rewrite Hexec, Hsent, app_nil_r. reflexivity. }
    rewrite Hiss, Hexec. split.
    + split; [intros Ha; apply Hacc in Ha; discriminate Ha | discriminate].
    + intros _. repeat split; [exact Hstore | apply Herr; reflexivity].
Qed.

Lemma handleFile_uploads_iff_acceptable_witness :
  acceptable SampleFiles.talk /\
  hd_error (issued (handleFile SampleFiles.talk SampleFiles.upload_ok
                      (Sample.status_reply processing 0 None))
                   Sample.world0)
  = Some (POST_upload SampleFiles.talk).
Proof.
  assert (H : acceptable SampleFiles.talk).
  { exists "MP3". split; [| split].
    - split; [reflexivity | right; exists "Talk.final"; reflexivity].
    - simpl. tauto.
    - simpl. lia. }
  split; [exact H|].
  apply (proj1 (handleFile_uploads_iff_acceptable SampleFiles.talk SampleFiles.upload_ok
                  (Sample.status_reply processing 0 None) Sample.world0)).
  exact H.
Defined.

(** Files the validation turns away, and a name without a dot that it
    lets through. *)
Example validateFile_examples :
  fst (validateFile SampleFiles.notes Sample.world0) = false /\
  fst (validateFile SampleFiles.huge Sample.world0) = false /\
  fst (validateFile SampleFiles.dotless Sample.world0) = true.
Proof. repeat split; reflexivity. Qed.

(** ** Export and preview *)

(** C8. [exportAudio] and [generatePreview] leave the job state alone,
    whether the request succeeds or fails: the job id, the status, the
    progress, the result and the tracks of the store are the same after the
    call as before it. [exportAudio] writes at most the fields [error],
    [exportUrl] and [isExporting] of the store, [generatePreview] at most the
    field [error]; neither touches the polling state. *)
Theorem renders_leave_job_state :
  forall (base : string) (filename : option string) (er : Reply ExportResponse.t)
         (startTime duration : number) (pr : Reply PreviewResponse.t) (w : World),
    same_job_state (store (exec (exportAudio base filename er) w)) (store w) /\
    same_job_state (store (exec (generatePreview base startTime duration pr) w)) (store w) /\
    (exists (e : option string) (u : option string) (x : bool),
        store (exec (exportAudio base filename er) w)
        = set [F_error e; F_exportUrl u; F_isExporting x] (store w)) /\
    (exists e : option string,
        store (exec (generatePreview base startTime duration pr) w)
        = set [F_error e] (store w)) /\
    analysis (exec (exportAudio base filename er) w) = analysis w /\
    analysis (exec (generatePreview base startTime duration pr) w) = analysis w.
Proof.
  intros base filename er startTime duration pr w.
  destruct w as [s q a e p u pl].
  destruct s as [f1 f2 j f4 f5 f6 f7 f8 f9 f10 f11 f12 f13 f14 f15 f16 f17].
  unfold same_job_state.
  destruct j as [[| c j] |]; destruct er as [resp | err]; destruct pr as [presp | perr];
    cbn; repeat split;
    try (eexists; eexists; eexists; reflexivity);
    try (eexists; reflexivity).
Qed.

Lemma issued_nil {A : Type} (m : M A) (w : World) :
  sent (exec m w) = sent w -> issued m w = [].
Proof. intros H. apply issued_of_sent. rewrite app_nil_r. exact H. Qed.

(** What [handleGeneratePreview] sends: nothing, or one preview request
    for the window that starts at 0 and lasts [Math.min(60, duration)]. *)
Lemma issued_handleGeneratePreview (base : string) (reply : Reply PreviewResponse.t)
      (w : World) :
  issued (handleGeneratePreview base reply) w = [] \/
  exists res j,
    result (store w) = Some res /\
    issued (handleGeneratePreview base reply) w
    = [POST_preview j (getMixConfig (store w)) (of_Z 0)
         (Math_min [of_Z 60; AnalysisResult.duration_seconds res])].
Proof.
  destruct w as [s q a e p u pl].
  destruct s as [f1 f2 j f4 f5 f6 r ts f9 f10 f11 f12 f13 f14 f15 f16 f17].
  destruct r as [res |]; [| left; apply issued_nil; reflexivity].
  destruct ts as [| t ts]; [left; apply issued_nil; reflexivity |].
  destruct j as [[| c j] |];
    [left; apply issued_nil; reflexivity | | left; apply issued_nil; reflexivity].
  right. exists res, (String c j). split; [reflexivity|].
  apply issued_of_sent.
  destruct reply as [resp | err].
  - unfold handleGeneratePreview, generatePreview, exec, bind, gets, act, send, ret,
      setPreviewError, setIsGenerating, setPreviewUrl, setPlayerPreviewUrl,
      setHasGeneratedPreview.
    cbn -[Math_min getMixConfig getAudioUrl].
    destruct (getAudioUrl base (PreviewResponse.preview_url resp)); reflexivity.
  - reflexivity.
Qed.

Lemma preview_duration_cases (dur : number) :
  gt dur (of_Z 0) = true ->
  Math_min [of_Z 60; dur] = (if lt dur (of_Z 60) then dur else of_Z 60) /\
  lt (of_Z 0) (Math_min [of_Z 60; dur]) = true /\
  le (Math_min [of_Z 60; dur]) dur = true.
Proof.
  change (gt dur (of_Z 0)) with (lt (of_Z 0) dur). intros Hpos.
  destruct (lt_not_NaN _ _ Hpos) as [_ Hn].
  rewrite (Math_min_two (of_Z 60) dur) by reflexivity.
  rewrite Hn. split; [reflexivity|].
  destruct (lt dur (of_Z 60)) eqn:Hlt.
  - split; [exact Hpos|]. unfold le, SFleb. rewrite SFcompare_refl by exact Hn. reflexivity.
  - split; [reflexivity|]. apply not_lt_le; [exact Hn | reflexivity | exact Hlt].
Qed.

(** C7. Every preview request the player sends asks for the window that
    starts at 0 and lasts [Math.min(60, duration_seconds)] of the result in
    the store. For a job of positive duration that is the smaller of 60
    and the duration, so the window [[0, duration)] is not empty, ends no
    later than the job, and is not degenerate: [start_time >= job duration]
    does not hold. *)
Theorem preview_window_within_job :
  forall (base : string) (reply : Reply PreviewResponse.t) (w : World) (req : Request),
    In req (issued (handleGeneratePreview base reply) w) ->
    exists (res : AnalysisResult.t) (j : string) (cfg : MixConfig.t)
           (start_time duration : number),
      result (store w) = Some res /\
      req = POST_preview j cfg start_time duration /\
      start_time = of_Z 0 /\
      duration = Math_min [of_Z 60; AnalysisResult.duration_seconds res] /\
      (gt (AnalysisResult.duration_seconds res) (of_Z 0) = true ->
       duration = (if lt (AnalysisResult.duration_seconds res) (of_Z 60)
                   then AnalysisResult.duration_seconds res else of_Z 60) /\
       le (of_Z 0) start_time = true /\
       lt start_time duration = true /\
       le duration (AnalysisResult.duration_seconds res) = true /\
       ge start_time (AnalysisResult.duration_seconds res) = false).
Proof.
  intros base reply w req Hin.
  destruct (issued_handleGeneratePreview base reply w) as [Hnil | [res [j [Hres Hiss]]]].
  - rewrite Hnil in Hin. destruct Hin.
  - rewrite Hiss in Hin. destruct Hin as [<- | []].
    exists res, j, (getMixConfig (store w)), (of_Z 0),
      (Math_min [of_Z 60; AnalysisResult.duration_seconds res]).
    repeat split; try assumption.
    + apply (preview_duration_cases _ H).
    + apply (preview_duration_cases _ H).
    + apply (preview_duration_cases _ H).
    + change (ge (of_Z 0) (AnalysisResult.duration_seconds res))
        with (le (AnalysisResult.duration_seconds res) (of_Z 0)).
      change (gt (AnalysisResult.duration_seconds res) (of_Z 0))
        with (lt (of_Z 0) (AnalysisResult.duration_seconds res)) in H.
      unfold le, SFleb. unfold lt, SFltb in H.
      rewrite (SFcompare_antisym (of_Z 0) (AnalysisResult.duration_seconds res)).
      destruct (SFcompare (of_Z 0) (AnalysisResult.duration_seconds res)) as [[ | | ] | ];
        try discriminate H; reflexivity.
Qed.

Lemma preview_window_within_job_witness :
  In (POST_preview "abc123def456" (getMixConfig (store Sample.world_done))
        (of_Z 0) (of_Z 10))
     (issued (handleGeneratePreview "http://localhost:8000" Sample.preview_ok)
        Sample.world_done) /\
  exists (res : AnalysisResult.t) (j : string) (cfg : MixConfig.t)
         (start_time duration : number),
    result (store Sample.world_done) = Some res /\
    POST_preview "abc123def456" (getMixConfig (store Sample.world_done))
      (of_Z 0) (of_Z 10)
    = POST_preview j cfg start_time duration /\
    start_time = of_Z 0 /\
    duration = Math_min [of_Z 60; AnalysisResult.duration_seconds res] /\
    (gt (AnalysisResult.duration_seconds res) (of_Z 0) = true ->
     duration = (if lt (AnalysisResult.duration_seconds res) (of_Z 60)
                 then AnalysisResult.duration_seconds res else of_Z 60) /\
     le (of_Z 0) start_time = true /\
     lt start_time duration = true /\
     le duration (AnalysisResult.duration_seconds res) = true /\
     ge start_time (AnalysisResult.duration_seconds res) = false).
Proof.
  assert (H : In (POST_preview "abc123def456" (getMixConfig (store Sample.world_done))
                    (of_Z 0) (of_Z 10))
                 (issued (handleGeneratePreview "http://localhost:8000" Sample.preview_ok)
                    Sample.world_done)).
  { left. reflexivity. }
  split; [exact H|].
  apply (preview_window_within_job "http://localhost:8000" Sample.preview_ok
           Sample.world_done _ H).
Defined.

(** ** Polling *)

Lemma pollingRef_poll (jobId : string) (reply : Reply JobStatusResponse.t) (w : World) :
  pollingRef (exec (poll jobId reply) w) = if stops reply then None else pollingRef w.
Proof.
  destruct w as [s q a e p u pl], a as [up pr ref].
  destruct reply as [[j st pg cs res] | err]; [| reflexivity].
  destruct st, res; reflexivity.
Qed.

(** A reply that carries a status is copied into the store. *)
Lemma store_poll_status (jobId : string) (st : JobStatusResponse.t) (w : World) :
  status (store (exec (poll jobId (inl st)) w)) = JobStatusResponse.status st /\
  progress (store (exec (poll jobId (inl st)) w)) = JobStatusResponse.progress st /\
  currentStep (store (exec (poll jobId (inl st)) w)) = JobStatusResponse.current_step st.
Proof.
  destruct w as [s q a e p u pl], a as [up pr ref].
  destruct s as [f1 f2 j f4 f5 f6 f7 f8 f9 f10 f11 f12 f13 f14 f15 f16 f17].
  destruct st as [j' st pg cs res].
  destruct st, res; repeat split; reflexivity.
Qed.

(** A failed request leaves status and progress as they were. *)
Lemma store_poll_error (jobId : string) (err : ApiError.t) (w : World) :
  status (store (exec (poll jobId (inr err)) w)) = status (store w) /\
  progress (store (exec (poll jobId (inr err)) w)) = progress (store w).
Proof.
  destruct w as [s q a e p u pl], a as [up pr ref].
  destruct s as [f1 f2 j f4 f5 f6 f7 f8 f9 f10 f11 f12 f13 f14 f15 f16 f17].
  split; reflexivity.
Qed.

(** [poll] is its request followed by the handling of the reply. *)
Lemma poll_request_then_reply (jobId : string) (reply : Reply JobStatusResponse.t)
      (w : World) :
  exec (poll jobId reply) w
  = exec (handle_reply reply) (exec (send (GET_status jobId)) w).
Proof. destruct w as [s q a e p u pl]. reflexivity. Qed.

Lemma sent_handle_reply (reply : Reply JobStatusResponse.t) (w : World) :
  sent (exec (handle_reply reply) w) = sent w.
Proof.
  destruct w as [s q a e p u pl], a as [up pr ref].
  destruct reply as [[j st pg cs res] | err]; [| reflexivity].
  destruct st, res; reflexivity.
Qed.


(** The handling of a status answer copies it into the store. *)
Lemma store_handle_reply_status (st : JobStatusResponse.t) (w : World) :
  status (store (exec (handle_reply (inl st)) w)) = JobStatusResponse.status st /\
  progress (store (exec (handle_reply (inl st)) w)) = JobStatusResponse.progress st.
Proof.
  destruct w as [s q a e p u pl], a as [up pr ref].
  destruct s as [f1 f2 j f4 f5 f6 f7 f8 f9 f10 f11 f12 f13 f14 f15 f16 f17].
  destruct st as [j' st pg cs res].
  destruct st, res; split; reflexivity.
Qed.


Lemma world_send (r : Request) (w : World) :
  sent (exec (send r) w) = sent w ++ [r] /\
  store (exec (send r) w) = store w /\
  pollingRef (exec (send r) w) = pollingRef w.
Proof. destruct w as [s q a e p u pl]. repeat split. Qed.













(** Once the interval is cleared no request is sent and it stays cleared. *)
Lemma stopped_run (jobId : string) (events : list PollEvent) (p : Poller) :
  running p = false ->
  running (run jobId events p) = false /\
  sent (world (run jobId events p)) = sent (world p).
Proof.
  revert p. induction events as [| ev rest IH]; intros p Hr; [split; [exact Hr | reflexivity]|].
  change (run jobId (ev :: rest) p) with (run jobId rest (on_event jobId p ev)).
  assert (Hstep : running (on_event jobId p ev) = false /\
                  sent (world (on_event jobId p ev)) = sent (world p)).
  { destruct ev as [| reply |]; cbn [on_event].
    - rewrite Hr. split; [exact Hr | reflexivity].
    - destruct (awaited p); [split; [exact Hr | reflexivity]|].
      cbn [world running]. rewrite Hr. split; [reflexivity | apply sent_handle_reply].
    - cbn [world running]. split; [| reflexivity].
      destruct (pollingRef (world p)); [reflexivity | exact Hr]. }
  destruct Hstep as [Hr' Hs'].
  destruct (IH _ Hr') as [H1 H2]. split; [exact H1 | rewrite H2; exact Hs'].
Qed.




(** The sample run: the requests in flight at the terminal answer are
    answered, the interval fires no more. *)
Example polling_example :
  map (fun n => awaited (run "abc123def456" (firstn n SamplePolling.events)
                           (start_polling "abc123def456" Sample.world0)))
      [0; 1; 4; 5; 6; 8; 10]
  = [1; 0; 3; 2; 1; 0; 0] /\
  sent (world (run "abc123def456" SamplePolling.events
                 (start_polling "abc123def456" Sample.world0)))
  = repeat (GET_status "abc123def456") 4.
Proof. split; reflexivity. Qed.

(** ** The mixing engine *)

Section MixerProperties.

Variable samples : Track.t -> list number.
Variable db_to_linear : number -> number.
Variables normalize_peak hard_clip : list number -> list number.

Lemma find_same_but_muted (p : string -> bool) (a b : list TrackConfig.t) :
  Forall2 Mixer.same_but_muted a b ->
  match find (fun tc => p (TrackConfig.track_id tc)) a,
        find (fun tc => p (TrackConfig.track_id tc)) b with
  | Some x, Some y => Mixer.same_but_muted x y
  | None, None => True
  | _, _ => False
  end.
Proof.
  induction 1 as [| x y a b Hxy _ IH]; simpl; [exact I|].
  destruct Hxy as [Hid Hrest]. rewrite <- Hid.
  destruct (p (TrackConfig.track_id x)); [| exact IH].
  split; assumption.
Qed.

Lemma resolve_same_but_muted (cfg cfg' : MixConfig.t) (t : Track.t) :
  Mixer.differ_in_muted_only cfg cfg' ->
  Mixer.same_but_muted (Mixer.resolve cfg t) (Mixer.resolve cfg' t).
Proof.
  intros [_ [Htracks _]]. unfold Mixer.resolve.
  pose proof (find_same_but_muted (fun i => String.eqb i (Track.id t)) _ _ Htracks) as H.
  cbv beta in H.
  destruct (find (fun tc => String.eqb (TrackConfig.track_id tc) (Track.id t))
                 (MixConfig.tracks cfg));
    destruct (find (fun tc => String.eqb (TrackConfig.track_id tc) (Track.id t))
                   (MixConfig.tracks cfg'));
    try contradiction; [exact H|].
  repeat split.
Qed.

Lemma main_track_same_but_muted (cfg cfg' : MixConfig.t) :
  Mixer.differ_in_muted_only cfg cfg' ->
  Mixer.main_track cfg = Mixer.main_track cfg'.
Proof.
  intros [_ [Htracks _]]. unfold Mixer.main_track.
  induction Htracks as [| x y a b Hxy _ IH]; simpl; [reflexivity|].
  destruct Hxy as [Hid [_ [_ Hmain]]]. rewrite <- Hmain.
  destruct (TrackConfig.is_main x); [simpl; rewrite Hid; reflexivity | exact IH].
Qed.

Lemma any_solo_same_but_muted (cfg cfg' : MixConfig.t) :
  Mixer.differ_in_muted_only cfg cfg' ->
  Mixer.any_solo cfg = Mixer.any_solo cfg'.
Proof.
  intros [_ [Htracks _]]. unfold Mixer.any_solo.
  induction Htracks as [| x y a b Hxy _ IH]; simpl; [reflexivity|].
  destruct Hxy as [_ [Hsolo _]]. rewrite Hsolo, IH. reflexivity.
Qed.

(** A track that resolves to soloed is soloed by an entry of the
    MixConfig. *)
Lemma resolved_solo_any_solo (cfg : MixConfig.t) (t : Track.t) :
  TrackConfig.solo (Mixer.resolve cfg t) = true -> Mixer.any_solo cfg = true.
Proof.
  unfold Mixer.resolve, Mixer.any_solo.
  destruct (find (fun tc => String.eqb (TrackConfig.track_id tc) (Track.id t))
                 (MixConfig.tracks cfg)) as [tc |] eqn:Hfind.
  - intros Hsolo. apply existsb_exists. exists tc.
    split; [exact (proj1 (find_some _ _ Hfind)) | exact Hsolo].
  - discriminate.
Qed.

Lemma track_buffer_same_but_muted (cfg cfg' : MixConfig.t) (t : Track.t) :
  Mixer.differ_in_muted_only cfg cfg' ->
  Mixer.track_buffer samples db_to_linear cfg t
  = Mixer.track_buffer samples db_to_linear cfg' t.
Proof.
  intros H. unfold Mixer.track_buffer, Mixer.is_boosted.
  destruct (resolve_same_but_muted cfg cfg' t H) as [_ [_ [Hvol _]]].
  rewrite (main_track_same_but_muted cfg cfg' H), Hvol.
  destruct H as [_ [_ [Hboost [Hnoise _]]]]. rewrite Hboost, Hnoise. reflexivity.
Qed.

Lemma silent_same_but_muted (cfg cfg' : MixConfig.t) (t : Track.t) :
  Mixer.differ_in_muted_only cfg cfg' ->
  Mixer.any_solo cfg = true ->
  Mixer.silent cfg' t = Mixer.silent cfg t.
Proof.
  intros H Hsolo. unfold Mixer.silent.
  rewrite <- (any_solo_same_but_muted cfg cfg' H), Hsolo.
  destruct (resolve_same_but_muted cfg cfg' t H) as [_ [Hs _]].
  rewrite Hs. reflexivity.
Qed.

(** The buffer of a track is made of that track's samples alone. *)
Lemma track_buffer_samples (samples' : Track.t -> list number) (cfg : MixConfig.t)
      (t : Track.t) :
  samples' t = samples t ->
  Mixer.track_buffer samples' db_to_linear cfg t
  = Mixer.track_buffer samples db_to_linear cfg t.
Proof. intros H. unfold Mixer.track_buffer. rewrite H. reflexivity. Qed.

(** The render reads the samples of the tracks that are not silent, and of
    no other track. *)
Lemma render_reads_audible (samples' : Track.t -> list number) (cfg : MixConfig.t)
      (job : list Track.t) :
  (forall t : Track.t, In t job -> Mixer.silent cfg t = false -> samples' t = samples t) ->
  Mixer.render samples' db_to_linear normalize_peak hard_clip cfg job
  = Mixer.render samples db_to_linear normalize_peak hard_clip cfg job.
Proof.
  intros H. unfold Mixer.render.
  assert (Hmap : map (Mixer.track_buffer samples' db_to_linear cfg)
                     (filter (fun t => negb (Mixer.silent cfg t)) job)
                 = map (Mixer.track_buffer samples db_to_linear cfg)
                       (filter (fun t => negb (Mixer.silent cfg t)) job)).
  { apply map_ext_in. intros t Ht. apply filter_In in Ht. destruct Ht as [Hin Hs].
    apply track_buffer_samples, H; [exact Hin|].
    destruct (Mixer.silent cfg t); [discriminate Hs | reflexivity]. }
  rewrite Hmap. reflexivity.
Qed.

(** C1. Take a MixConfig and any other that differs from it only in muted
    flags. When some entry of the MixConfig is soloed, both render the same
    buffer; the buffer is the finished sum of the buffers of the tracks
    that resolve to soloed, and of no others, whatever their muted flags;
    and the samples of a track that is not soloed do not reach it: every
    track with solo = false is silent. When no entry is soloed, the buffer
    is the finished sum of the buffers of exactly the tracks that are not
    muted, and the samples of a muted track do not reach it. *)
Theorem solo_dominates_mute :
  forall (cfg cfg' : MixConfig.t) (job : list Track.t)
         (samples' : Track.t -> list number),
    Mixer.differ_in_muted_only cfg cfg' ->
    (existsb TrackConfig.solo (MixConfig.tracks cfg) = true ->
     Mixer.render samples db_to_linear normalize_peak hard_clip cfg' job
     = Mixer.render samples db_to_linear normalize_peak hard_clip cfg job /\
     Mixer.render samples db_to_linear normalize_peak hard_clip cfg job
     = (if MixConfig.normalize cfg then normalize_peak else hard_clip)
         (Mixer.sum_buffers
            (map (Mixer.track_buffer samples db_to_linear cfg)
                 (filter (fun t => TrackConfig.solo (Mixer.resolve cfg t)) job))) /\
     ((forall t : Track.t,
          In t job -> TrackConfig.solo (Mixer.resolve cfg t) = true ->
          samples' t = samples t) ->
      Mixer.render samples' db_to_linear normalize_peak hard_clip cfg job
      = Mixer.render samples db_to_linear normalize_peak hard_clip cfg job) /\
     forall t : Track.t,
       Mixer.silent cfg t = negb (TrackConfig.solo (Mixer.resolve cfg t)) /\
       Mixer.silent cfg' t = Mixer.silent cfg t) /\
    (existsb TrackConfig.solo (MixConfig.tracks cfg) = false ->
     Mixer.render samples db_to_linear normalize_peak hard_clip cfg job
     = (if MixConfig.normalize cfg then normalize_peak else hard_clip)
         (Mixer.sum_buffers
            (map (Mixer.track_buffer samples db_to_linear cfg)
                 (filter (fun t => negb (TrackConfig.muted (Mixer.resolve cfg t))) job))) /\
     ((forall t : Track.t,
          In t job -> TrackConfig.muted (Mixer.resolve cfg t) = false ->
          samples' t = samples t) ->
      Mixer.render samples' db_to_linear normalize_peak hard_clip cfg job
      = Mixer.render samples db_to_linear normalize_peak hard_clip cfg job) /\
     forall t : Track.t,
       Mixer.silent cfg t = TrackConfig.muted (Mixer.resolve cfg t)).
Proof.
  intros cfg cfg' job samples' H. split.
  - intros Hsolo. change (Mixer.any_solo cfg = true) in Hsolo.
    assert (Hsilent : forall t, Mixer.silent cfg t
                                = negb (TrackConfig.solo (Mixer.resolve cfg t))).
    { intros t. unfold Mixer.silent. rewrite Hsolo. reflexivity. }
    split; [| split; [| split]].
    + unfold Mixer.render.
      rewrite (filter_ext _ _
                 (fun t => f_equal negb (silent_same_but_muted cfg cfg' t H Hsolo))).
      rewrite (map_ext _ _ (fun t => eq_sym (track_buffer_same_but_muted cfg cfg' t H))).
      destruct H as [_ [_ [_ [_ [_ Hnorm]]]]]. rewrite Hnorm. reflexivity.
    + unfold Mixer.render.
      rewrite (filter_ext (fun t => negb (Mixer.silent cfg t))
                          (fun t => TrackConfig.solo (Mixer.resolve cfg t))).
      * destruct (MixConfig.normalize cfg); reflexivity.
      * intros t. rewrite Hsilent. apply negb_involutive.
    + intros Hsame. apply render_reads_audible. intros t Hin Hs.
      apply Hsame; [exact Hin|]. rewrite Hsilent in Hs.
      destruct (TrackConfig.solo (Mixer.resolve cfg t)); [reflexivity | discriminate Hs].
    + intros t. split; [apply Hsilent|].
      apply silent_same_but_muted; assumption.
  - intros Hsolo. change (Mixer.any_solo cfg = false) in Hsolo.
    assert (Hsilent : forall t, Mixer.silent cfg t = TrackConfig.muted (Mixer.resolve cfg t)).
    { intros t. unfold Mixer.silent. rewrite Hsolo. reflexivity. }
    split; [| split].
    + unfold Mixer.render.
      rewrite (filter_ext (fun t => negb (Mixer.silent cfg t))
                          (fun t => negb (TrackConfig.muted (Mixer.resolve cfg t)))).
      * destruct (MixConfig.normalize cfg); reflexivity.
      * intros t. rewrite Hsilent. reflexivity.
    + intros Hsame. apply render_reads_audible. intros t Hin Hs.
      apply Hsame; [exact Hin|]. rewrite <- Hsilent. exact Hs.
    + exact Hsilent.
Qed.

End MixerProperties.

Lemma solo_dominates_mute_witness :
  Mixer.differ_in_muted_only SampleMix.soloed SampleMix.soloed_and_muted /\
  existsb TrackConfig.solo (MixConfig.tracks SampleMix.soloed) = true /\
  Mixer.render SampleMix.samples SampleMix.linear SampleMix.unchanged
    SampleMix.unchanged SampleMix.soloed_and_muted SampleMix.job
  = Mixer.render SampleMix.samples SampleMix.linear SampleMix.unchanged
      SampleMix.unchanged SampleMix.soloed SampleMix.job /\
  Mixer.render SampleMix.louder_noise SampleMix.linear SampleMix.unchanged
    SampleMix.unchanged SampleMix.soloed SampleMix.job
  = Mixer.render SampleMix.samples SampleMix.linear SampleMix.unchanged
      SampleMix.unchanged SampleMix.soloed SampleMix.job.
Proof.
  assert (H : Mixer.differ_in_muted_only SampleMix.soloed SampleMix.soloed_and_muted).
  { unfold Mixer.differ_in_muted_only, Mixer.same_but_muted. simpl.
    repeat split; repeat constructor. }
  assert (Hs : existsb TrackConfig.solo (MixConfig.tracks SampleMix.soloed) = true)
    by reflexivity.
  split; [exact H|]. split; [exact Hs|].
  destruct (proj1 (solo_dominates_mute SampleMix.samples SampleMix.linear
                     SampleMix.unchanged SampleMix.unchanged
                     SampleMix.soloed SampleMix.soloed_and_muted SampleMix.job
                     SampleMix.louder_noise H) Hs) as [Hrender [_ [Hsamples _]]].
  split; [exact Hrender|].
  apply Hsamples. intros t [<- | [<- | []]] Ht; [reflexivity | discriminate Ht].
Defined.

(** With the speaker soloed, only its samples reach the render, muted or
    not, and a soloed entry for a track that the job does not have
    silences every track; without a solo, muting the noise track removes
    it, and muting nothing mixes both tracks, so that louder noise is
    heard. *)
Example render_examples :
  Mixer.render SampleMix.samples SampleMix.linear SampleMix.unchanged
    SampleMix.unchanged SampleMix.soloed_and_muted SampleMix.job
  = [of_Z 1; of_Z 2] /\
  Mixer.render SampleMix.samples SampleMix.linear SampleMix.unchanged
    SampleMix.unchanged
    (SampleMix.config [SampleMix.entry "speaker_9" false true]) SampleMix.job
  = [] /\
  Mixer.render SampleMix.samples SampleMix.linear SampleMix.unchanged
    SampleMix.unchanged
    (SampleMix.config [SampleMix.entry "noise" true false]) SampleMix.job
  = [of_Z 1; of_Z 2] /\
  Mixer.render SampleMix.samples SampleMix.linear SampleMix.unchanged
    SampleMix.unchanged (SampleMix.config []) SampleMix.job
  = [of_Z 5; of_Z 10] /\
  Mixer.render SampleMix.louder_noise SampleMix.linear SampleMix.unchanged
    SampleMix.unchanged (SampleMix.config []) SampleMix.job
  = [of_Z 41; of_Z 82].
Proof. repeat split; vm_compute; reflexivity. Qed.

(** * Further properties *)

(** ** The order of numbers *)

(** [SFcompare] orders the numbers that are not NaN: its [Lt] is
    transitive, and numbers it finds equal compare alike with any third. *)
Lemma SFcompare_Lt_trans (a b c : number) :
  SFcompare a b = Some Lt -> SFcompare b c = Some Lt -> SFcompare a c = Some Lt.
Proof.
  destruct a as [sa | sa | | sa ma ea], b as [sb | sb | | sb mb eb],
           c as [sc | sc | | sc mc ec]; simpl;
    try destruct sa; try destruct sb; try destruct sc; simpl;
    try congruence; intros H1 H2;
    change (Pos.compare_cont Eq) with Pos.compare in *;
    destruct (Z.compare_spec ea eb), (Z.compare_spec eb ec); try discriminate;
    destruct (Z.compare_spec ea ec); try reflexivity; try lia; subst;
    destruct (Pos.compare_spec ma mb), (Pos.compare_spec mb mc); try discriminate;
    destruct (Pos.compare_spec ma mc); try reflexivity; simpl in *; lia.
Qed.

Lemma SFcompare_Eq_left (a b c : number) :
  SFcompare a b = Some Eq -> SFcompare a c = SFcompare b c.
Proof.
  destruct a as [sa | sa | | sa ma ea], b as [sb | sb | | sb mb eb]; simpl;
    try destruct sa; try destruct sb; simpl; try congruence; intros H;
    try reflexivity;
    change (Pos.compare_cont Eq) with Pos.compare in *;
    destruct (Z.compare_spec ea eb); try discriminate; subst;
    destruct (Pos.compare_spec ma mb); try discriminate; subst; reflexivity.
Qed.

Lemma SFcompare_Eq_right (a b c : number) :
  SFcompare a b = Some Eq -> SFcompare c a = SFcompare c b.
Proof.
  intros H. rewrite (SFcompare_antisym a c), (SFcompare_antisym b c).
  rewrite (SFcompare_Eq_left a b c H). reflexivity.
Qed.

Lemma lt_trans (a b c : number) : lt a b = true -> lt b c = true -> lt a c = true.
Proof.
  unfold lt, SFltb. intros H1 H2.
  destruct (SFcompare a b) as [[ | | ] | ] eqn:E1; try discriminate.
  destruct (SFcompare b c) as [[ | | ] | ] eqn:E2; try discriminate.
  rewrite (SFcompare_Lt_trans a b c E1 E2). reflexivity.
Qed.

Lemma le_lt_trans (a b c : number) : le a b = true -> lt b c = true -> lt a c = true.
Proof.
  unfold le, SFleb. intros H1 H2.
  destruct (SFcompare a b) as [[ | | ] | ] eqn:E1; try discriminate.
  - unfold lt, SFltb in *. rewrite (SFcompare_Eq_left a b c E1). exact H2.
  - apply (lt_trans a b c); [unfold lt, SFltb; rewrite E1; reflexivity | exact H2].
Qed.

Lemma lt_le_trans (a b c : number) : lt a b = true -> le b c = true -> lt a c = true.
Proof.
  unfold le, SFleb. intros H1 H2.
  destruct (SFcompare b c) as [[ | | ] | ] eqn:E2; try discriminate.
  - unfold lt, SFltb in *. rewrite <- (SFcompare_Eq_right b c a E2). exact H1.
  - apply (lt_trans a b c); [exact H1 | unfold lt, SFltb; rewrite E2; reflexivity].
Qed.

Lemma le_refl (a : number) : isNaN a = false -> le a a = true.
Proof. intros H. unfold le, SFleb. rewrite (SFcompare_refl a H). reflexivity. Qed.

Lemma le_lt_false (a b : number) : le a b = true -> lt b a = false.
Proof.
  unfold le, lt, SFleb, SFltb. rewrite (SFcompare_antisym a b).
  destruct (SFcompare a b) as [[ | | ] | ]; simpl; congruence.
Qed.

(** ** Track operations of the store *)

Lemma map_fixed {A : Type} (f : A -> A) (l : list A) :
  (forall x, In x l -> f x = x) -> map f l = l.
Proof.
  intros H. rewrite <- (map_id l) at 2. apply map_ext_in. exact H.
Qed.

Lemma set_tracks_eq (a b : list TrackUIState.t) (s : AppState) :
  a = b -> set [F_tracks a] s = set [F_tracks b] s.
Proof. intros ->. reflexivity. Qed.

Lemma set_tracks_noop (a : list TrackUIState.t) (s : AppState) :
  a = tracks s -> set [F_tracks a] s = s.
Proof. intros ->. apply set_tracks_same. Qed.

(** Two track operations in a row are one write of the track list. *)
Ltac fuse_track_writes :=
  unfold toggleTrackMute, toggleTrackSolo, setTrackVolume, setMainSpeaker;
  rewrite ?tracks_set_tracks, ?set_tracks_twice, ?map_map.

Ltac by_track :=
  let t := fresh "t" in
  apply set_tracks_eq, map_ext; intros t; destruct t as [tr m so vo ma];
  unfold TrackUIState.id; cbn [TrackUIState.track];
  repeat match goal with
         | |- context [String.eqb (Track.id tr) ?b] =>
             destruct (String.eqb (Track.id tr) b) eqn:?;
             cbn [TrackUIState.track TrackUIState.muted TrackUIState.solo
                  TrackUIState.volume TrackUIState.isMain]
         end;
  rewrite ?negb_involutive; try reflexivity; try congruence.

(** X1. Muting a track twice, or soloing it twice, gives back the state
    before: the two toggles are involutions on the whole store. *)
Theorem toggles_are_involutions :
  forall (trackId : string) (s : AppState),
    toggleTrackMute trackId (toggleTrackMute trackId s) = s /\
    toggleTrackSolo trackId (toggleTrackSolo trackId s) = s.
Proof.
  intros trackId s. split; fuse_track_writes;
    apply set_tracks_noop, map_fixed; intros t _; destruct t as [tr m so vo ma];
    unfold TrackUIState.id; cbn [TrackUIState.track];
    destruct (String.eqb (Track.id tr) trackId) eqn:E;
    unfold TrackUIState.id; cbn [TrackUIState.track TrackUIState.muted TrackUIState.solo
                                 TrackUIState.volume TrackUIState.isMain];
    rewrite ?E, ?negb_involutive; reflexivity.
Qed.

(** X2. A track operation on an id that no track of the store carries
    changes nothing: mute, solo and volume leave the store as it is. *)
Theorem unknown_id_is_noop :
  forall (trackId : string) (v : number) (s : AppState),
    unknown_id trackId s ->
    toggleTrackMute trackId s = s /\
    toggleTrackSolo trackId s = s /\
    setTrackVolume trackId v s = s.
Proof.
  intros trackId v s H. repeat split; fuse_track_writes;
    apply set_tracks_noop, map_fixed; intros t Ht; rewrite (H t Ht); reflexivity.
Qed.

Lemma unknown_id_is_noop_witness :
  unknown_id "speaker_9" SampleStates.adjusted /\
  toggleTrackMute "speaker_9" SampleStates.adjusted = SampleStates.adjusted /\
  toggleTrackSolo "speaker_9" SampleStates.adjusted = SampleStates.adjusted /\
  setTrackVolume "speaker_9" (of_Z 1) SampleStates.adjusted = SampleStates.adjusted.
Proof.
  assert (H : unknown_id "speaker_9" SampleStates.adjusted).
  { intros t [<- | [<- | []]]; reflexivity. }
  split; [exact H|].
  apply (unknown_id_is_noop "speaker_9" (of_Z 1) SampleStates.adjusted H).
Defined.

(** X3. The four track operations act on separate fields: mute, solo,
    volume and main-speaker operations commute with one another, on the
    same or on different tracks. For the volume and for the main speaker
    the last write wins. *)
Theorem track_ops_compose :
  forall (i j : string) (v w : number) (s : AppState),
    toggleTrackMute i (toggleTrackSolo j s) = toggleTrackSolo j (toggleTrackMute i s) /\
    setTrackVolume i v (toggleTrackMute j s) = toggleTrackMute j (setTrackVolume i v s) /\
    setTrackVolume i v (toggleTrackSolo j s) = toggleTrackSolo j (setTrackVolume i v s) /\
    setMainSpeaker i (toggleTrackMute j s) = toggleTrackMute j (setMainSpeaker i s) /\
    setMainSpeaker i (toggleTrackSolo j s) = toggleTrackSolo j (setMainSpeaker i s) /\
    setMainSpeaker i (setTrackVolume j v s) = setTrackVolume j v (setMainSpeaker i s) /\
    setTrackVolume i w (setTrackVolume i v s) = setTrackVolume i w s /\
    setMainSpeaker j (setMainSpeaker i s) = setMainSpeaker j s.
Proof.
  intros i j v w s. repeat split; fuse_track_writes; by_track.
Qed.

(** The clamped volume of an input that is not NaN lies in [[0, 2]]. *)
Lemma clamp_in_range (v : number) :
  isNaN v = false -> in_volume_range (Math_max [of_Z 0; Math_min [of_Z 2; v]]) = true.
Proof.
  intros Hn. unfold in_volume_range.
  rewrite (Math_min_two (of_Z 2) v) by reflexivity. rewrite Hn.
  destruct (lt v (of_Z 2)) eqn:H2.
  - rewrite Math_max_zero, Hn. unfold gt. change (SFltb (of_Z 0) v) with (lt (of_Z 0) v).
    destruct (lt (of_Z 0) v) eqn:H0.
    + rewrite (lt_le _ _ H0), (lt_le _ _ H2). reflexivity.
    + reflexivity.
  - reflexivity.
Qed.

Lemma volumes_in_range_apply_op (op : TrackOp) (s : AppState) :
  forallb (fun v => negb (isNaN v)) (volumes_set [op]) = true ->
  Forall (fun t => in_volume_range (TrackUIState.volume t) = true) (tracks s) ->
  Forall (fun t => in_volume_range (TrackUIState.volume t) = true) (tracks (apply_op s op)).
Proof.
  intros Hop H.
  destruct op; simpl;
    unfold toggleTrackMute, toggleTrackSolo, setTrackVolume, setMainSpeaker;
    rewrite tracks_set_tracks; apply Forall_map;
    (eapply Forall_impl; [| exact H]); intros t Ht; cbv beta;
    try destruct (String.eqb (TrackUIState.id t) trackId); try exact Ht.
  cbn [TrackUIState.volume]. apply clamp_in_range.
  simpl in Hop. rewrite andb_true_r in Hop. apply negb_true_iff. exact Hop.
Qed.

(** X4. As long as no volume passed to [setTrackVolume] is NaN, every
    volume of every MixConfig read from a store reached from [setResult] by
    track operations lies in [[0, 2]]. *)
Theorem volumes_stay_in_range :
  forall (res : AnalysisResult.t) (ops : list TrackOp) (s0 : AppState),
    forallb (fun v => negb (isNaN v)) (volumes_set ops) = true ->
    Forall (fun c => in_volume_range (TrackConfig.volume c) = true)
           (MixConfig.tracks (getMixConfig (apply_ops ops (setResult (Some res) s0)))).
Proof.
  intros res ops s0 Hops.
  assert (H : Forall (fun t => in_volume_range (TrackUIState.volume t) = true)
                     (tracks (apply_ops ops (setResult (Some res) s0)))).
  { assert (H0 : Forall (fun t => in_volume_range (TrackUIState.volume t) = true)
                        (tracks (setResult (Some res) s0))).
    { rewrite tracks_setResult. unfold mapi.
      eapply Forall_impl; [| apply defaults_mapi_from].
      intros t [_ [_ Hv]]. rewrite Hv. reflexivity. }
    revert H0 Hops. generalize (setResult (Some res) s0).
    induction ops as [| op ops IH]; intros s H0 Hops; [exact H0|].
    unfold apply_ops in *. cbn [fold_left]. apply IH.
    - apply volumes_in_range_apply_op; [| exact H0].
      destruct op; try reflexivity. simpl in *.
      apply andb_true_iff in Hops. rewrite (proj1 Hops). reflexivity.
    - destruct op; try exact Hops. simpl in Hops.
      apply andb_true_iff in Hops. exact (proj2 Hops). }
  unfold getMixConfig. cbn [MixConfig.tracks]. apply Forall_map.
  eapply Forall_impl; [| exact H]. intros t Ht. exact Ht.
Qed.

Lemma volumes_stay_in_range_witness :
  forallb (fun v => negb (isNaN v))
          (volumes_set [SetVolume "noise" (of_Z 9); ToggleMute "noise";
                        SetVolume "speaker_0" neg_Infinity]) = true /\
  Forall (fun c => in_volume_range (TrackConfig.volume c) = true)
         (MixConfig.tracks
            (getMixConfig
               (apply_ops [SetVolume "noise" (of_Z 9); ToggleMute "noise";
                           SetVolume "speaker_0" neg_Infinity]
                  (setResult (Some Sample.finished) initialState)))).
Proof.
  assert (H : forallb (fun v => negb (isNaN v))
                (volumes_set [SetVolume "noise" (of_Z 9); ToggleMute "noise";
                              SetVolume "speaker_0" neg_Infinity]) = true)
    by reflexivity.
  split; [exact H|].
  apply (volumes_stay_in_range Sample.finished
           [SetVolume "noise" (of_Z 9); ToggleMute "noise";
            SetVolume "speaker_0" neg_Infinity] initialState H).
Defined.

(** X5. After [setMainSpeaker trackId] a track is main exactly when it
    carries that id, whatever was main before; the other mix parameters of
    every track are as before. With an id that no track carries, no track
    is main afterwards. *)
Theorem setMainSpeaker_designates_by_id :
  forall (trackId : string) (s : AppState),
    Forall (fun t => TrackUIState.isMain t = String.eqb (TrackUIState.id t) trackId)
           (tracks (setMainSpeaker trackId s)) /\
    map TrackUIState.track (tracks (setMainSpeaker trackId s))
    = map TrackUIState.track (tracks s) /\
    map TrackUIState.muted (tracks (setMainSpeaker trackId s))
    = map TrackUIState.muted (tracks s) /\
    map TrackUIState.solo (tracks (setMainSpeaker trackId s))
    = map TrackUIState.solo (tracks s) /\
    map TrackUIState.volume (tracks (setMainSpeaker trackId s))
    = map TrackUIState.volume (tracks s) /\
    (unknown_id trackId s -> main_count (tracks (setMainSpeaker trackId s)) = 0) /\
    (In trackId (map TrackUIState.id (tracks s)) ->
     1 <= main_count (tracks (setMainSpeaker trackId s))).
Proof.
  intros trackId s. unfold setMainSpeaker. rewrite tracks_set_tracks.
  split; [apply Forall_map, Forall_forall; intros t _; reflexivity|].
  repeat (split; [rewrite map_map; reflexivity|]).
  unfold main_count. rewrite filter_map_comm, length_map.
  cbn [TrackUIState.isMain]. unfold unknown_id.
  generalize (tracks s) as l. intros l. split.
  - intros H. induction l as [| t ts IH]; [reflexivity|].
    simpl. rewrite (H t (or_introl eq_refl)). apply IH.
    intros t' Ht'. apply H. right. exact Ht'.
  - intros H. induction l as [| t ts IH]; [destruct H|].
    simpl. destruct (String.eqb (TrackUIState.id t) trackId) eqn:E; [simpl; lia|].
    apply IH. destruct H as [H | H]; [| exact H].
    rewrite H, String.eqb_refl in E. discriminate E.
Qed.

Lemma tracks_apply_ops_mirror (ops : list TrackOp) (s : AppState) :
  map TrackUIState.track (tracks (apply_ops ops s)) = map TrackUIState.track (tracks s).
Proof.
  revert s. induction ops as [| op ops IH]; intros s; [reflexivity|].
  unfold apply_ops in *. cbn [fold_left]. rewrite IH.
  destruct op; simpl;
    unfold toggleTrackMute, toggleTrackSolo, setTrackVolume, setMainSpeaker;
    rewrite tracks_set_tracks, map_map; apply map_ext; intros t;
    try destruct (String.eqb (TrackUIState.id t) trackId); reflexivity.
Qed.

Lemma result_apply_ops (ops : list TrackOp) (s : AppState) :
  result (apply_ops ops s) = result s.
Proof. rewrite apply_ops_only_tracks. destruct s; reflexivity. Qed.

(** X6. The track list of the store mirrors the result: in every state
    reached from [setResult] by track operations, the result is the one
    installed, the tracks are those of the result in their order, and the
    MixConfig has one entry per track of the result, with its id, in the
    same order. *)
Theorem tracks_mirror_result :
  forall (res : AnalysisResult.t) (ops : list TrackOp) (s0 : AppState),
    result (apply_ops ops (setResult (Some res) s0)) = Some res /\
    map TrackUIState.track (tracks (apply_ops ops (setResult (Some res) s0)))
    = AnalysisResult.tracks res /\
    map TrackConfig.track_id
        (MixConfig.tracks (getMixConfig (apply_ops ops (setResult (Some res) s0))))
    = map Track.id (AnalysisResult.tracks res).
Proof.
  intros res ops s0.
  assert (H : map TrackUIState.track (tracks (apply_ops ops (setResult (Some res) s0)))
              = AnalysisResult.tracks res).
  { rewrite tracks_apply_ops_mirror, tracks_setResult. apply track_mapi_from. }
  split; [rewrite result_apply_ops; destruct s0; reflexivity|].
  split; [exact H|].
  unfold getMixConfig. cbn [MixConfig.tracks]. rewrite map_map. cbn [TrackConfig.track_id].
  rewrite <- H, map_map. reflexivity.
Qed.

(** X7. [setResult] replaces the track list wholesale: whatever track
    operations were applied to an earlier result, installing a result gives
    the same state as installing it right away, and [setResult(null)]
    leaves no result and no tracks, so that the mixer is not rendered. *)
Theorem setResult_discards_adjustments :
  forall (r : option AnalysisResult.t) (res : AnalysisResult.t) (ops : list TrackOp)
         (s : AppState),
    setResult r (apply_ops ops (setResult (Some res) s)) = setResult r s /\
    result (setResult None s) = None /\
    tracks (setResult None s) = [] /\
    mixer_rendered (setResult None s) = false.
Proof.
  intros r res ops s. split.
  - rewrite apply_ops_only_tracks.
    destruct s; destruct r; reflexivity.
  - destruct s; repeat split; reflexivity.
Qed.

Lemma mapi_from_map {A B C : Type} (f : B -> nat -> C) (g : A -> B) (k : nat) (l : list A) :
  mapi_from k (fun x i => f (g x) i) l = mapi_from k f (map g l).
Proof.
  revert k. induction l as [| x l IH]; intros k; simpl; [reflexivity|].
  rewrite IH. reflexivity.
Qed.

(** X8. "Reset All" of the track manager undoes every adjustment made
    since the result was installed: after any track operations and any
    boost and noise reduction settings, [resetAllTracks] gives the state
    that [setResult] gave, with the boost at 3.0 dB and the noise reduction
    at 0. *)
Theorem resetAllTracks_restores_defaults :
  forall (res : AnalysisResult.t) (ops : list TrackOp) (db level : number)
         (s0 : AppState),
    resetAllTracks
      (setNoiseReductionLevel level
         (setMainSpeakerBoostDb db (apply_ops ops (setResult (Some res) s0))))
    = setNoiseReductionLevel (of_Z 0)
        (setMainSpeakerBoostDb (of_Z 3) (setResult (Some res) s0)).
Proof.
  intros res ops db level s0.
  pose proof (tracks_apply_ops_mirror ops (setResult (Some res) s0)) as Hm.
  rewrite tracks_setResult in Hm. unfold mapi in Hm. rewrite track_mapi_from in Hm.
  rewrite (apply_ops_only_tracks ops (setResult (Some res) s0)).
  rewrite (apply_ops_only_tracks ops (setResult (Some res) s0)) in Hm.
  revert Hm. generalize (tracks (apply_ops ops (setResult (Some res) s0))).
  intros ts Hm. rewrite tracks_set_tracks in Hm.
  unfold resetAllTracks.
  assert (Hts : tracks (setNoiseReductionLevel level
                          (setMainSpeakerBoostDb db
                             (set [F_tracks ts] (setResult (Some res) s0)))) = ts)
    by (destruct s0; reflexivity).
  rewrite Hts. unfold mapi. rewrite (mapi_from_map withDefaults TrackUIState.track), Hm.
  destruct s0; reflexivity.
Qed.

(** X9. A track is shown in the speaker list exactly when its type is
    speaker and in the noise list exactly when its type is noise or other,
    never in both; a track of type vocals, drums or bass is shown in
    neither list, while the MixConfig still has its entry. *)
Theorem track_lists_by_type :
  forall (s : AppState) (t : TrackUIState.t),
    In t (tracks s) ->
    (In t (speakerTracks s) <-> TrackUIState.type t = speaker) /\
    (In t (noiseTracks s) <->
     TrackUIState.type t = noise \/ TrackUIState.type t = other) /\
    ~ (In t (speakerTracks s) /\ In t (noiseTracks s)) /\
    (TrackUIState.type t = vocals \/ TrackUIState.type t = drums \/
     TrackUIState.type t = bass ->
     ~ In t (speakerTracks s) /\ ~ In t (noiseTracks s) /\
     In (TrackUIState.id t) (map TrackConfig.track_id (MixConfig.tracks (getMixConfig s)))).
Proof.
  intros s t Hin. unfold speakerTracks, noiseTracks. rewrite !filter_In.
  assert (Hcfg : In (TrackUIState.id t)
                    (map TrackConfig.track_id (MixConfig.tracks (getMixConfig s)))).
  { unfold getMixConfig. cbn [MixConfig.tracks]. rewrite map_map. cbn [TrackConfig.track_id].
    apply (in_map TrackUIState.id). exact Hin. }
  destruct (TrackUIState.type t) eqn:E; cbn [TrackType_eqb orb];
    intuition (try discriminate; try congruence).
Qed.

Lemma track_lists_by_type_witness :
  In (withDefaults Sample.noise_track 1) (tracks (store Sample.world_done)) /\
  In (withDefaults Sample.noise_track 1) (noiseTracks (store Sample.world_done)) /\
  ~ In (withDefaults Sample.noise_track 1) (speakerTracks (store Sample.world_done)).
Proof.
  assert (H : In (withDefaults Sample.noise_track 1) (tracks (store Sample.world_done))).
  { right. left. reflexivity. }
  split; [exact H|].
  destruct (track_lists_by_type (store Sample.world_done)
              (withDefaults Sample.noise_track 1) H) as [Hs [Hn _]].
  split.
  - apply Hn. left. reflexivity.
  - intros Hc. apply Hs in Hc. discriminate Hc.
Defined.

(** ** Starting over, cancelling, uploading *)

Lemma jobId_poll (jobId0 : string) (reply : Reply JobStatusResponse.t) (w : World) :
  jobId (store (exec (poll jobId0 reply) w)) = jobId (store w) /\
  uploadedFile (store (exec (poll jobId0 reply) w)) = uploadedFile (store w) /\
  analysis (exec (poll jobId0 reply) w)
  = AnalysisHook.mk (AnalysisHook.isUploading (analysis w))
                    (AnalysisHook.uploadProgress (analysis w))
                    (pollingRef (exec (poll jobId0 reply) w)).
Proof.
  destruct w as [s q a e p u pl], a as [up pr ref].
  destruct s as [f1 f2 j f4 f5 f6 f7 f8 f9 f10 f11 f12 f13 f14 f15 f16 f17].
  destruct reply as [[j' st pg cs res] | err]; [| repeat split].
  destruct st, res; repeat split.
Qed.

(** The message shown for a failed request is never empty. *)
Lemma error_text_truthy (e : ApiError.t) (fallback : string) :
  fallback <> "" -> truthy (Some (error_text e fallback)) = true.
Proof.
  intros H. destruct e as [[[| c d] |] [[| c' m] |]]; unfold error_text; simpl;
    try reflexivity; destruct fallback; try reflexivity; congruence.
Qed.

(** X10. "Start Over" ends in the initial state of the store whatever the
    state before, in either order in which [reset] and the tail of
    [cancelAnalysis] run; it stops the polling, and it asks the server to
    delete the job exactly when the store has a job id. *)
Theorem handleStartOver_ends_in_initialState :
  forall w : World,
    store (exec handleStartOver w) = initialState /\
    pollingRef (exec handleStartOver w) = None /\
    issued handleStartOver w
    = (if truthy (jobId (store w))
       then [DELETE_job (or_else (jobId (store w)) "")] else []).
Proof.
  intros w. destruct w as [s q a e p u pl], a as [up pr ref].
  destruct s as [f1 f2 j f4 f5 f6 f7 f8 f9 f10 f11 f12 f13 f14 f15 f16 f17].
  destruct j as [[| c j] |]; repeat split;
    try (apply issued_nil; reflexivity);
    try (apply issued_of_sent; reflexivity).
Qed.

(** X11. [cancelAnalysis] clears the job (job id, status, progress, step,
    result, tracks, uploaded file) and clears the interval of its hook;
    unlike [reset] it keeps the error, the export url and the mix settings.
    It sends one delete request when the store has a job id and none
    otherwise. It does not withdraw a status request that is in flight:
    when the reply arrives it is handled, and its status and progress are
    copied into the store that was cleared. *)
Theorem cancelAnalysis_clears_job :
  forall (w : World) (st : JobStatusResponse.t),
    jobId (store (exec cancelAnalysis w)) = None /\
    status (store (exec cancelAnalysis w)) = pending /\
    progress (store (exec cancelAnalysis w)) = of_Z 0 /\
    currentStep (store (exec cancelAnalysis w)) = "" /\
    result (store (exec cancelAnalysis w)) = None /\
    tracks (store (exec cancelAnalysis w)) = [] /\
    uploadedFile (store (exec cancelAnalysis w)) = None /\
    pollingRef (exec cancelAnalysis w) = None /\
    (status (store (exec (handle_reply (inl st)) (exec cancelAnalysis w)))
     = JobStatusResponse.status st /\
     progress (store (exec (handle_reply (inl st)) (exec cancelAnalysis w)))
     = JobStatusResponse.progress st /\
     jobId (store (exec (handle_reply (inl st)) (exec cancelAnalysis w))) = None) /\
    error (store (exec cancelAnalysis w)) = error (store w) /\
    exportUrl (store (exec cancelAnalysis w)) = exportUrl (store w) /\
    mainSpeakerBoostDb (store (exec cancelAnalysis w)) = mainSpeakerBoostDb (store w) /\
    noiseReductionLevel (store (exec cancelAnalysis w)) = noiseReductionLevel (store w) /\
    outputFormat (store (exec cancelAnalysis w)) = outputFormat (store w) /\
    normalize (store (exec cancelAnalysis w)) = normalize (store w) /\
    issued cancelAnalysis w
    = (if truthy (jobId (store w))
       then [DELETE_job (or_else (jobId (store w)) "")] else []).
Proof.
  intros w st.
  assert (Hreply : status (store (exec (handle_reply (inl st)) (exec cancelAnalysis w)))
                   = JobStatusResponse.status st /\
                   progress (store (exec (handle_reply (inl st)) (exec cancelAnalysis w)))
                   = JobStatusResponse.progress st /\
                   jobId (store (exec (handle_reply (inl st)) (exec cancelAnalysis w)))
                   = None).
  { destruct (store_handle_reply_status st (exec cancelAnalysis w)) as [H1 H2].
    split; [exact H1|]. split; [exact H2|].
    destruct w as [s q a e p u pl], a as [up pr ref].
    destruct s as [f1 f2 j0 f4 f5 f6 f7 f8 f9 f10 f11 f12 f13 f14 f15 f16 f17].
    destruct st as [j' st pg cs res].
    destruct j0 as [[| c j0] |]; destruct st, res; reflexivity. }
  destruct w as [s q a e p u pl], a as [up pr ref].
  destruct s as [f1 f2 j0 f4 f5 f6 f7 f8 f9 f10 f11 f12 f13 f14 f15 f16 f17].
  destruct j0 as [[| c j0] |];
    (split; [reflexivity|]); (split; [reflexivity|]); (split; [reflexivity|]);
    (split; [reflexivity|]); (split; [reflexivity|]); (split; [reflexivity|]);
    (split; [reflexivity|]); (split; [reflexivity|]); (split; [exact Hreply|]);
    repeat split;
    try (apply issued_nil; reflexivity);
    try (apply issued_of_sent; reflexivity).
Qed.

(** The requests of a run of the polling are status requests for its job,
    at most one for each firing of the interval. *)
Lemma sent_run (jobId : string) (events : list PollEvent) (p : Poller) :
  exists n : nat,
    n <= tick_count events /\
    sent (world (run jobId events p)) = sent (world p) ++ repeat (GET_status jobId) n.
Proof.
  revert p. induction events as [| ev rest IH]; intros p.
  - exists 0. split; [apply Nat.le_refl | symmetry; apply app_nil_r].
  - change (run jobId (ev :: rest) p) with (run jobId rest (on_event jobId p ev)).
    destruct (IH (on_event jobId p ev)) as [n [Hn Hs]]. rewrite Hs.
    destruct ev as [| reply |]; unfold tick_count in *; cbn [filter List.length on_event].
    + destruct (running p).
      * exists (S n). split; [apply le_n_S; exact Hn|].
        cbn [world]. destruct (world_send (GET_status jobId) (world p)) as [-> _].
        rewrite <- app_assoc. reflexivity.
      * exists n. split; [apply le_S; exact Hn | reflexivity].
    + exists n. split; [exact Hn|].
      destruct (awaited p); [reflexivity|].
      cbn [world]. rewrite sent_handle_reply. reflexivity.
    + exists n. split; [exact Hn | reflexivity].
Qed.

(** X12. The requests of [uploadAndAnalyze] follow one protocol. The
    upload is always sent first. When it fails nothing else is sent; when
    the analysis request fails nothing is sent after it; in both cases the
    status is failed, the error is the (never empty) message of the failure
    and the polling state is left as it was. When both succeed the status
    is processing, the first status request for the job id the upload
    returned is sent before [uploadAndAnalyze] returns, without waiting
    for any reply, and the interval is installed; from then on every
    request of the polling is a status request for that job, at most one
    for each firing of the interval; and when the component that owns the
    hook is unmounted first, as the upload card is once the status is
    processing, no further request is sent. In every case the file is
    recorded as uploaded and [isUploading] is false at the end. *)
Theorem uploadAndAnalyze_protocol :
  forall (file : File.t) (up : Reply UploadResponse.t) (an : Reply JobStatusResponse.t)
         (w : World),
    AnalysisHook.isUploading (analysis (exec (uploadAndAnalyze file up an) w))
    = false /\
    uploadedFile (store (exec (uploadAndAnalyze file up an) w)) = Some file /\
    match up, an with
    | inr e, _ =>
        issued (uploadAndAnalyze file up an) w = [POST_upload file] /\
        status (store (exec (uploadAndAnalyze file up an) w)) = failed /\
        error (store (exec (uploadAndAnalyze file up an) w))
        = Some (error_text e "An error occurred") /\
        truthy (error (store (exec (uploadAndAnalyze file up an) w))) = true /\
        jobId (store (exec (uploadAndAnalyze file up an) w)) = jobId (store w) /\
        pollingRef (exec (uploadAndAnalyze file up an) w) = pollingRef w
    | inl r, inr e =>
        issued (uploadAndAnalyze file up an) w
        = [POST_upload file; POST_analyze (UploadResponse.job_id r)] /\
        status (store (exec (uploadAndAnalyze file up an) w)) = failed /\
        error (store (exec (uploadAndAnalyze file up an) w))
        = Some (error_text e "An error occurred") /\
        truthy (error (store (exec (uploadAndAnalyze file up an) w))) = true /\
        jobId (store (exec (uploadAndAnalyze file up an) w))
        = Some (UploadResponse.job_id r) /\
        pollingRef (exec (uploadAndAnalyze file up an) w) = pollingRef w
    | inl r, inl _ =>
        jobId (store (exec (uploadAndAnalyze file up an) w))
        = Some (UploadResponse.job_id r) /\
        status (store (exec (uploadAndAnalyze file up an) w)) = processing /\
        issued (uploadAndAnalyze file up an) w
        = [POST_upload file; POST_analyze (UploadResponse.job_id r);
           GET_status (UploadResponse.job_id r)] /\
        pollingRef (exec (uploadAndAnalyze file up an) w) = Some (interval 2000) /\
        forall events : list PollEvent,
          (exists n : nat,
              n <= tick_count events /\
              sent (world (run (UploadResponse.job_id r) events
                             (mkPoller (exec (uploadAndAnalyze file up an) w) true 1)))
              = sent (exec (uploadAndAnalyze file up an) w)
                  ++ repeat (GET_status (UploadResponse.job_id r)) n) /\
          sent (world (run (UploadResponse.job_id r) (Unmount :: events)
                         (mkPoller (exec (uploadAndAnalyze file up an) w) true 1)))
          = sent (exec (uploadAndAnalyze file up an) w)
    end.
Proof.
  intros file up an w.
  destruct up as [r | err]; [destruct an as [ok | err] |].
  - assert (Hp : pollingRef (exec (uploadAndAnalyze file (inl r) (inl ok)) w)
                 = Some (interval 2000)).
    { destruct w as [s q a e p u pl], a as [upl pr ref]. reflexivity. }
    split; [destruct w as [s q a e p u pl], a as [upl pr ref]; reflexivity|].
    split; [destruct w as [s q a e p u pl], a as [upl pr ref];
            destruct s as [f1 f2 j f4 f5 f6 f7 f8 f9 f10 f11 f12 f13 f14 f15 f16 f17];
            reflexivity|].
    split; [destruct w as [s q a e p u pl], a as [upl pr ref];
            destruct s as [f1 f2 j f4 f5 f6 f7 f8 f9 f10 f11 f12 f13 f14 f15 f16 f17];
            reflexivity|].
    split; [destruct w as [s q a e p u pl], a as [upl pr ref];
            destruct s as [f1 f2 j f4 f5 f6 f7 f8 f9 f10 f11 f12 f13 f14 f15 f16 f17];
            reflexivity|].
    split; [apply issued_of_sent; destruct w as [s q a e p u pl], a as [upl pr ref];
            cbn; rewrite <- !app_assoc; reflexivity|].
    split; [exact Hp|].
    intros events. split.
    + exact (sent_run (UploadResponse.job_id r) events
               (mkPoller (exec (uploadAndAnalyze file (inl r) (inl ok)) w) true 1)).
    + change (run (UploadResponse.job_id r) (Unmount :: events)
                (mkPoller (exec (uploadAndAnalyze file (inl r) (inl ok)) w) true 1))
        with (run (UploadResponse.job_id r) events
                (on_event (UploadResponse.job_id r)
                   (mkPoller (exec (uploadAndAnalyze file (inl r) (inl ok)) w) true 1)
                   Unmount)).
      cbn [on_event world running awaited]. rewrite Hp.
      exact (proj2 (stopped_run (UploadResponse.job_id r) events
                      (mkPoller (exec (uploadAndAnalyze file (inl r) (inl ok)) w) false 1)
                      eq_refl)).
  - destruct w as [s q a e p u pl], a as [upl pr ref].
    destruct s as [f1 f2 j f4 f5 f6 f7 f8 f9 f10 f11 f12 f13 f14 f15 f16 f17].
    pose proof (error_text_truthy err "An error occurred") as Ht.
    repeat split; try (apply Ht; discriminate).
    apply issued_of_sent. cbn. rewrite <- app_assoc. reflexivity.
  - destruct w as [s q a e p u pl], a as [upl pr ref].
    destruct s as [f1 f2 j f4 f5 f6 f7 f8 f9 f10 f11 f12 f13 f14 f15 f16 f17].
    pose proof (error_text_truthy err "An error occurred") as Ht.
    repeat split; try (apply Ht; discriminate).
    apply issued_of_sent. reflexivity.
Qed.

(** ** Export, preview and urls *)

(** X13. [exportAudio] sends one export request when the store has a job
    id, carrying that id, the MixConfig of the store at the call and the
    file name; the export button of the player passes no file name. On
    success the error is cleared and the export url is the audio url of the
    download; on failure the error is the (never empty) message and the
    export url stays as it was. Both exporting flags are false at the end.
    Without a job id nothing is sent, the error is "No job to export" and
    nothing else changes. *)
Theorem exportAudio_request_and_flags :
  forall (base : string) (filename : option string) (reply : Reply ExportResponse.t)
         (w : World),
    issued (handleExport base reply) w = issued (exportAudio base None reply) w /\
    if truthy (jobId (store w))
    then
      issued (exportAudio base filename reply) w
      = [POST_export (or_else (jobId (store w)) "") (getMixConfig (store w)) filename] /\
      isExporting (store (exec (exportAudio base filename reply) w)) = false /\
      ExportHook.isExporting (exporter (exec (exportAudio base filename reply) w)) = false /\
      match reply with
      | inl response =>
          error (store (exec (exportAudio base filename reply) w)) = None /\
          exportUrl (store (exec (exportAudio base filename reply) w))
          = Some (getAudioUrl base (ExportResponse.download_url response))
      | inr e =>
          error (store (exec (exportAudio base filename reply) w))
          = Some (error_text e "Export failed") /\
          truthy (error (store (exec (exportAudio base filename reply) w))) = true /\
          exportUrl (store (exec (exportAudio base filename reply) w))
          = exportUrl (store w)
      end
    else
      issued (exportAudio base filename reply) w = [] /\
      exec (exportAudio base filename reply) w
      = exec (act (setError (Some "No job to export"))) w.
Proof.
  intros base filename reply w.
  destruct w as [s q a e p u pl].
  destruct s as [f1 f2 j f4 f5 f6 f7 f8 f9 f10 f11 f12 f13 f14 f15 f16 f17].
  split.
  - unfold issued, handleExport. destruct pl as [pu hg pe].
    destruct j as [[| c j] |], reply as [resp | err]; reflexivity.
  - destruct j as [[| c j] |]; cbn [store jobId truthy];
      try (split; [apply issued_nil; reflexivity | reflexivity]).
    destruct reply as [resp | err].
    + repeat split. apply issued_of_sent. reflexivity.
    + pose proof (error_text_truthy err "Export failed") as Ht.
      repeat split; try (apply Ht; discriminate).
      apply issued_of_sent. reflexivity.
Qed.

(** X14. [generatePreview] returns a url exactly when the store has a job
    id and the request succeeds, and the url is then the audio url of the
    preview, which also becomes the hook's [previewUrl]. In every other
    case it returns null, the error is not empty and the hook's
    [previewUrl] stays as it was. [isGenerating] is false after every
    request. *)
Theorem generatePreview_result :
  forall (base : string) (startTime duration : number) (reply : Reply PreviewResponse.t)
         (w : World),
    match jobId (store w), reply with
    | Some (String c j), inl response =>
        fst (generatePreview base startTime duration reply w)
        = Some (getAudioUrl base (PreviewResponse.preview_url response)) /\
        PreviewHook.previewUrl
          (preview (exec (generatePreview base startTime duration reply) w))
        = Some (getAudioUrl base (PreviewResponse.preview_url response)) /\
        error (store (exec (generatePreview base startTime duration reply) w)) = None /\
        PreviewHook.isGenerating
          (preview (exec (generatePreview base startTime duration reply) w)) = false
    | Some (String c j), inr _ =>
        fst (generatePreview base startTime duration reply w) = None /\
        PreviewHook.previewUrl
          (preview (exec (generatePreview base startTime duration reply) w))
        = PreviewHook.previewUrl (preview w) /\
        truthy (error (store (exec (generatePreview base startTime duration reply) w)))
        = true /\
        PreviewHook.isGenerating
          (preview (exec (generatePreview base startTime duration reply) w)) = false
    | _, _ =>
        fst (generatePreview base startTime duration reply w) = None /\
        preview (exec (generatePreview base startTime duration reply) w) = preview w /\
        error (store (exec (generatePreview base startTime duration reply) w))
        = Some "No job to preview" /\
        issued (generatePreview base startTime duration reply) w = []
    end.
Proof.
  intros base startTime duration reply w.
  destruct w as [s q a e p u pl], p as [purl gen].
  destruct s as [f1 f2 j f4 f5 f6 f7 f8 f9 f10 f11 f12 f13 f14 f15 f16 f17].
  destruct j as [[| c j] |]; cbn [store jobId];
    try (destruct reply; repeat split; apply issued_nil; reflexivity).
  destruct reply as [resp | err]; [repeat split|].
  pose proof (error_text_truthy err "Preview generation failed") as Ht.
  repeat split. apply Ht. discriminate.
Qed.

Lemma prefix_app (p a b : string) :
  String.prefix p a = true -> String.prefix p (a ++ b) = true.
Proof.
  revert a. induction p as [| c p IH]; intros a H.
  - destruct (a ++ b)%string; reflexivity.
  - destruct a as [| d a]; [discriminate H|].
    simpl in *. destruct (ascii_dec c d); [apply IH; exact H | discriminate H].
Qed.

(** X15. With a base url that starts with "http" (both defaults do), the
    url [getAudioUrl] returns always starts with "http", so applying it
    again changes nothing; a path that is already such a url is returned
    as it is. *)
Theorem getAudioUrl_absolute :
  forall base path : string,
    startsWith base "http" = true ->
    startsWith (getAudioUrl base path) "http" = true /\
    getAudioUrl base (getAudioUrl base path) = getAudioUrl base path /\
    (startsWith path "http" = true -> getAudioUrl base path = path).
Proof.
  intros base path Hbase.
  assert (H : startsWith (getAudioUrl base path) "http" = true).
  { unfold getAudioUrl. destruct (startsWith path "http") eqn:E; [exact E|].
    unfold startsWith in *. apply prefix_app. exact Hbase. }
  split; [exact H|]. split.
  - unfold getAudioUrl at 1. rewrite H. reflexivity.
  - intros Hp. unfold getAudioUrl. rewrite Hp. reflexivity.
Qed.

Lemma getAudioUrl_absolute_witness :
  startsWith "http://localhost:8000" "http" = true /\
  getAudioUrl "http://localhost:8000" "/audio/abc123def456/exports/mix.wav"
  = "http://localhost:8000/audio/abc123def456/exports/mix.wav" /\
  startsWith
    (getAudioUrl "http://localhost:8000" "/audio/abc123def456/exports/mix.wav") "http"
  = true.
Proof.
  assert (H : startsWith "http://localhost:8000" "http" = true) by reflexivity.
  split; [exact H|]. split; [reflexivity|].
  apply (proj1 (getAudioUrl_absolute "http://localhost:8000"
                  "/audio/abc123def456/exports/mix.wav" H)).
Defined.

(** ** What a status reply does to the mix *)

(** X16. A status poll never touches the mix settings (boost, noise
    reduction, format, normalize) or the job id. Unless the reply has
    status complete and carries a result, it leaves the result and the
    tracks, hence the whole MixConfig, as they were. A complete reply with
    a result installs it: the tracks are those of the result with the
    default parameters, the status is complete and the polling stops. *)
Theorem poll_and_the_mix :
  forall (j : string) (reply : Reply JobStatusResponse.t) (w : World),
    mainSpeakerBoostDb (store (exec (poll j reply) w)) = mainSpeakerBoostDb (store w) /\
    noiseReductionLevel (store (exec (poll j reply) w)) = noiseReductionLevel (store w) /\
    outputFormat (store (exec (poll j reply) w)) = outputFormat (store w) /\
    normalize (store (exec (poll j reply) w)) = normalize (store w) /\
    jobId (store (exec (poll j reply) w)) = jobId (store w) /\
    match installs_result reply with
    | None =>
        result (store (exec (poll j reply) w)) = result (store w) /\
        tracks (store (exec (poll j reply) w)) = tracks (store w) /\
        getMixConfig (store (exec (poll j reply) w)) = getMixConfig (store w)
    | Some res =>
        result (store (exec (poll j reply) w)) = Some res /\
        tracks (store (exec (poll j reply) w))
        = mapi withDefaults (AnalysisResult.tracks res) /\
        status (store (exec (poll j reply) w)) = complete /\
        pollingRef (exec (poll j reply) w) = None
    end.
Proof.
  intros j reply w.
  destruct w as [s q a e p u pl], a as [up pr ref].
  destruct s as [f1 f2 j0 f4 f5 f6 f7 f8 f9 f10 f11 f12 f13 f14 f15 f16 f17].
  destruct reply as [[j' st pg cs res] | err]; [| repeat split].
  destruct st, res; repeat split.
Qed.

(** ** More on upload validation *)

Lemma extension_of (file : File.t) (e : string) :
  is_extension (File.name file) e -> extension file = Some (toLowerCase e).
Proof.
  intros H. unfold extension. rewrite (is_extension_pop_split _ _ H). reflexivity.
Qed.

(** X17. [validateFile] checks the type before the size and reports one
    message: a file whose extension is not allowed gets the "Invalid file
    type" message whatever its size, an allowed one above 500 MB gets the
    "File too large" message, and an accepted file clears the message of an
    earlier attempt. Nothing but the validation error changes. *)
Theorem validateFile_message :
  forall (file : File.t) (w : World) (e : string),
    is_extension (File.name file) e ->
    snd (validateFile file w)
    = exec (setValidationError
              (if includes ALLOWED_EXTENSIONS (toLowerCase e)
               then if (File.size file >? 500 * 1024 * 1024)%Z
                    then Some "File too large. Maximum size: 500MB"
                    else None
               else Some "Invalid file type. Allowed: mp3, wav, m4a, flac, ogg, aac")) w.
Proof.
  intros file w e H. unfold validateFile. rewrite (extension_of file e H).
  destruct (includes ALLOWED_EXTENSIONS (toLowerCase e)) eqn:Hi.
  - assert (Ht : truthy (Some (toLowerCase e)) = true).
    { apply includes_In in Hi. destruct (toLowerCase e); [| reflexivity].
      simpl in Hi. intuition discriminate. }
    assert (Ho : or_else (Some (toLowerCase e)) "" = toLowerCase e).
    { destruct (toLowerCase e); reflexivity. }
    rewrite Ht, Ho, Hi. cbn [negb orb].
    destruct (File.size file >? 500 * 1024 * 1024)%Z; destruct w; reflexivity.
  - assert (Hc : negb (truthy (Some (toLowerCase e)))
                 || negb (includes ALLOWED_EXTENSIONS (or_else (Some (toLowerCase e)) ""))
                 = true).
    { destruct (toLowerCase e) eqn:El; [reflexivity|].
      cbn [truthy negb orb or_else]. rewrite Hi. reflexivity. }
    rewrite Hc. destruct w; reflexivity.
Qed.

Lemma validateFile_message_witness :
  is_extension (File.name SampleFiles.huge) "flac" /\
  FileUploadC.validationError (fileUpload (snd (validateFile SampleFiles.huge Sample.world0)))
  = Some "File too large. Maximum size: 500MB".
Proof.
  assert (H : is_extension (File.name SampleFiles.huge) "flac").
  { split; [reflexivity | right; exists "concert"; reflexivity]. }
  split; [exact H|].
  rewrite (validateFile_message SampleFiles.huge Sample.world0 "flac" H). reflexivity.
Defined.

(** X18. A file whose name ends with a dot has an empty extension and is
    always turned away, with the "Invalid file type" message. *)
Theorem trailing_dot_is_rejected :
  forall (stem : string) (size : Z) (w : World),
    fst (validateFile {| File.name := stem ++ "."; File.size := size |} w) = false /\
    FileUploadC.validationError
      (fileUpload (snd (validateFile {| File.name := stem ++ "."; File.size := size |} w)))
    = Some "Invalid file type. Allowed: mp3, wav, m4a, flac, ogg, aac".
Proof.
  intros stem size w.
  assert (H : is_extension (stem ++ ".") "").
  { split; [reflexivity | right; exists stem; reflexivity]. }
  split.
  - destruct (fst (validateFile {| File.name := stem ++ "."; File.size := size |} w)) eqn:E;
      [| reflexivity].
    apply validateFile_accepts in E. destruct E as [e [He [Hin _]]].
    cbn [File.name] in He.
    pose proof (is_extension_pop_split _ _ He) as H1.
    rewrite (is_extension_pop_split _ _ H) in H1. injection H1 as <-.
    simpl in Hin. intuition discriminate.
  - unfold validateFile.
    rewrite (extension_of {| File.name := stem ++ "."; File.size := size |} "" H).
    destruct w; reflexivity.
Qed.

Lemma lower_ascii_dot (c : ascii) :
  Ascii.eqb (lower_ascii c) "." = Ascii.eqb c ".".
Proof.
  destruct c as [[|] [|] [|] [|] [|] [|] [|] [|]]; reflexivity.
Qed.

Lemma lower_ascii_idempotent (c : ascii) : lower_ascii (lower_ascii c) = lower_ascii c.
Proof.
  destruct c as [[|] [|] [|] [|] [|] [|] [|] [|]]; reflexivity.
Qed.

Lemma toLowerCase_idempotent (s : string) : toLowerCase (toLowerCase s) = toLowerCase s.
Proof.
  induction s as [| c s IH]; simpl; [reflexivity|].
  rewrite lower_ascii_idempotent, IH. reflexivity.
Qed.

Lemma split_toLowerCase (s : string) :
  split "." (toLowerCase s) = map toLowerCase (split "." s).
Proof.
  induction s as [| c s IH]; simpl; [reflexivity|].
  rewrite lower_ascii_dot, IH.
  destruct (Ascii.eqb c "."); [reflexivity|].
  destruct (split "." s); reflexivity.
Qed.

Lemma pop_map {A B : Type} (f : A -> B) (l : list A) :
  pop (map f l) = option_map f (pop l).
Proof.
  induction l as [| x l IH]; [reflexivity|].
  destruct l as [| y l]; [reflexivity|]. exact IH.
Qed.

Lemma extension_toLowerCase (n : string) (z : Z) :
  extension {| File.name := toLowerCase n; File.size := z |}
  = extension {| File.name := n; File.size := z |}.
Proof.
  unfold extension. cbn [File.name]. rewrite split_toLowerCase, pop_map.
  destruct (pop (split "." n)); [| reflexivity].
  cbn [option_map]. rewrite toLowerCase_idempotent. reflexivity.
Qed.

Lemma validateFile_verdict (file : File.t) (w : World) :
  fst (validateFile file w)
  = negb (negb (truthy (extension file))
          || negb (includes ALLOWED_EXTENSIONS (or_else (extension file) "")))
    && negb (File.size file >? 500 * 1024 * 1024)%Z.
Proof.
  unfold validateFile.
  destruct (negb (truthy (extension file))
            || negb (includes ALLOWED_EXTENSIONS (or_else (extension file) "")));
    [destruct w; reflexivity|].
  destruct (File.size file >? 500 * 1024 * 1024)%Z; destruct w; reflexivity.
Qed.

(** X19. The validation does not depend on the case of the letters of the
    file name: two files of the same size whose names differ only in the
    case of ASCII letters get the same verdict. *)
Theorem validateFile_ignores_case :
  forall (n1 n2 : string) (size : Z) (w : World),
    toLowerCase n1 = toLowerCase n2 ->
    fst (validateFile {| File.name := n1; File.size := size |} w)
    = fst (validateFile {| File.name := n2; File.size := size |} w).
Proof.
  intros n1 n2 size w H. rewrite !validateFile_verdict.
  rewrite <- (extension_toLowerCase n1 size), <- (extension_toLowerCase n2 size), H.
  reflexivity.
Qed.

Lemma validateFile_ignores_case_witness :
  toLowerCase "Interview.Final.WAV" = toLowerCase "interview.final.wav" /\
  fst (validateFile {| File.name := "Interview.Final.WAV"; File.size := 2048 |}
         Sample.world0)
  = fst (validateFile {| File.name := "interview.final.wav"; File.size := 2048 |}
           Sample.world0).
Proof.
  assert (H : toLowerCase "Interview.Final.WAV" = toLowerCase "interview.final.wav")
    by reflexivity.
  split; [exact H|].
  apply (validateFile_ignores_case "Interview.Final.WAV" "interview.final.wav" 2048
           Sample.world0 H).
Defined.

(** ** The progress card and the views of the application *)

Lemma ge_is_not_lt (p c : number) :
  isNaN p = false -> isNaN c = false -> ge p c = negb (lt p c).
Proof.
  intros Hp Hc. unfold ge. change (SFleb c p) with (le c p).
  destruct (lt p c) eqn:E; simpl.
  - destruct (le c p) eqn:E'; [| reflexivity].
    rewrite (le_lt_false _ _ E') in E. discriminate E.
  - apply not_lt_le; assumption.
Qed.

(** X20. The steps of the progress card are done in order: a step that is
    done has every earlier step done (Finalize at 100, Diarize from 80,
    Separate from 40, Upload above 0). *)
Theorem steps_done_in_order :
  forall s : AppState,
    (step_done Finalize s = true -> step_done Diarize s = true) /\
    (step_done Diarize s = true -> step_done Separate s = true) /\
    (step_done Separate s = true -> step_done Upload s = true).
Proof.
  intros s. unfold step_done, ge, gt.
  change SFleb with le. change SFltb with lt. repeat split.
  - unfold SFeqb. intros H.
    destruct (SFcompare (progress s) (of_Z 100)) as [[ | | ] | ] eqn:E; try discriminate H.
    unfold le, SFleb. rewrite (SFcompare_Eq_right _ _ (of_Z 80) E). reflexivity.
  - intros H. apply lt_le. apply (lt_le_trans _ (of_Z 80)); [reflexivity | exact H].
  - intros H. apply (lt_le_trans _ (of_Z 40)); [reflexivity | exact H].
Qed.

(** X21. While the status is processing and the progress is a number
    below 100, exactly one step of the progress card is active: Upload
    below 10, Separate from 10, Diarize from 40, Finalize from 80. *)
Theorem one_active_step_while_processing :
  forall s : AppState,
    status s = processing ->
    isNaN (progress s) = false ->
    lt (progress s) (of_Z 100) = true ->
    exists st : Step,
      step_active st s = true /\
      (forall st' : Step, step_active st' s = true -> st' = st) /\
      st = (if lt (progress s) (of_Z 10) then Upload
            else if lt (progress s) (of_Z 40) then Separate
                 else if lt (progress s) (of_Z 80) then Diarize else Finalize).
Proof.
  intros s Hst Hn H100.
  assert (A : forall st, step_active st s =
                match st with
                | Upload => lt (progress s) (of_Z 10)
                | Separate => negb (lt (progress s) (of_Z 10)) && lt (progress s) (of_Z 40)
                | Diarize => negb (lt (progress s) (of_Z 40)) && lt (progress s) (of_Z 80)
                | Finalize => negb (lt (progress s) (of_Z 80))
                end).
  { intros st. unfold step_active. rewrite Hst, H100.
    rewrite !(ge_is_not_lt (progress s)) by (try exact Hn; reflexivity).
    destruct st; cbn [ProcessingStatus_eqb andb orb]; rewrite ?andb_true_r; reflexivity. }
  assert (T1 : lt (progress s) (of_Z 10) = true -> lt (progress s) (of_Z 40) = true).
  { intros H. apply (lt_trans _ (of_Z 10)); [exact H | reflexivity]. }
  assert (T2 : lt (progress s) (of_Z 40) = true -> lt (progress s) (of_Z 80) = true).
  { intros H. apply (lt_trans _ (of_Z 40)); [exact H | reflexivity]. }
  destruct (lt (progress s) (of_Z 10)) eqn:E10;
    destruct (lt (progress s) (of_Z 40)) eqn:E40;
    destruct (lt (progress s) (of_Z 80)) eqn:E80;
    try (specialize (T1 eq_refl); discriminate T1);
    try (specialize (T2 eq_refl); discriminate T2);
    eexists; (split; [| split; [| reflexivity]]);
    try (rewrite A, ?E10, ?E40, ?E80; reflexivity);
    intros st' H'; rewrite A, ?E10, ?E40, ?E80 in H'; destruct st';
    try reflexivity; discriminate H'.
Qed.

Lemma one_active_step_while_processing_witness :
  status (setProgress (of_Z 55) (setStatus processing initialState)) = processing /\
  step_active Diarize (setProgress (of_Z 55) (setStatus processing initialState)) = true /\
  exists st : Step,
    step_active st (setProgress (of_Z 55) (setStatus processing initialState)) = true /\
    (forall st' : Step,
        step_active st' (setProgress (of_Z 55) (setStatus processing initialState)) = true ->
        st' = st) /\
    st = (if lt (progress (setProgress (of_Z 55) (setStatus processing initialState)))
               (of_Z 10) then Upload
          else if lt (progress (setProgress (of_Z 55) (setStatus processing initialState)))
                     (of_Z 40) then Separate
               else if lt (progress (setProgress (of_Z 55)
                                       (setStatus processing initialState)))
                          (of_Z 80) then Diarize else Finalize).
Proof.
  split; [reflexivity|]. split; [reflexivity|].
  apply (one_active_step_while_processing
           (setProgress (of_Z 55) (setStatus processing initialState)));
    reflexivity.
Defined.


(** X23. Which view follows an upload: when the upload and the analysis
    request succeed, the application shows the progress card, which is
    rendered, before any status reply arrives; when either fails, it shows
    the upload form again, with an error that is not empty. When a status
    reply then reports complete with a result, the results view is shown,
    and the mixer with it when the result has at least one track. *)
Theorem view_after_upload :
  forall (file : File.t) (up : Reply UploadResponse.t) (an : Reply JobStatusResponse.t)
         (j : string) (st : JobStatusResponse.t) (res : AnalysisResult.t) (w : World),
    match up, an with
    | inl _, inl _ =>
        showsProcessing (store (exec (uploadAndAnalyze file up an) w)) = true /\
        card_rendered (store (exec (uploadAndAnalyze file up an) w)) = true
    | _, _ =>
        showsUpload (store (exec (uploadAndAnalyze file up an) w)) = true /\
        truthy (error (store (exec (uploadAndAnalyze file up an) w))) = true
    end /\
    (JobStatusResponse.status st = complete ->
     JobStatusResponse.result st = Some res ->
     showsResults (store (exec (poll j (inl st)) w)) = true /\
     mixer_rendered (store (exec (poll j (inl st)) w))
     = negb (Nat.eqb (List.length (AnalysisResult.tracks res)) 0)).
Proof.
  intros file up an j st res w. split.
  - destruct w as [s q a e p u pl], a as [upl pr ref].
    destruct s as [f1 f2 j0 f4 f5 f6 f7 f8 f9 f10 f11 f12 f13 f14 f15 f16 f17].
    destruct up as [r | err]; [destruct an as [ok | err] |].
    + split; reflexivity.
    + split; [reflexivity|]. apply (error_text_truthy err "An error occurred"). discriminate.
    + split; [reflexivity|]. apply (error_text_truthy err "An error occurred"). discriminate.
  - intros Hst Hres.
    destruct w as [s q a e p u pl], a as [upl pr ref].
    destruct s as [f1 f2 j0 f4 f5 f6 f7 f8 f9 f10 f11 f12 f13 f14 f15 f16 f17].
    destruct st as [j' st pg cs r]. cbn in Hst, Hres. subst st r.
    split; [reflexivity|].
    unfold mixer_rendered. cbn. unfold mapi.
    destruct (AnalysisResult.tracks res); reflexivity.
Qed.

Lemma view_after_upload_witness :
  showsResults
    (store (exec (poll "abc123def456"
                    (Sample.status_reply complete 100 (Some Sample.finished)))
              (Sample.polling Sample.world0))) = true /\
  mixer_rendered
    (store (exec (poll "abc123def456"
                    (Sample.status_reply complete 100 (Some Sample.finished)))
              (Sample.polling Sample.world0))) = true.
Proof.
  destruct (proj2 (view_after_upload SampleFiles.talk SampleFiles.upload_ok
                     (Sample.status_reply processing 0 None) "abc123def456"
                     {| JobStatusResponse.job_id := "abc123def456";
                        JobStatusResponse.status := complete;
                        JobStatusResponse.progress := of_Z 100;
                        JobStatusResponse.current_step := "";
                        JobStatusResponse.result := Some Sample.finished |}
                     Sample.finished (Sample.polling Sample.world0))
              eq_refl eq_refl) as [H1 H2].
  split; [exact H1 | exact H2].
Defined.

Lemma issued_exportAudio (base : string) (filename : option string)
      (reply : Reply ExportResponse.t) (w : World) :
  issued (exportAudio base filename reply) w
  = if truthy (jobId (store w))
    then [POST_export (or_else (jobId (store w)) "") (getMixConfig (store w)) filename]
    else [].
Proof.
  destruct w as [s q a e p u pl].
  destruct s as [f1 f2 j f4 f5 f6 f7 f8 f9 f10 f11 f12 f13 f14 f15 f16 f17].
  destruct j as [[| c j] |]; cbn [store jobId truthy];
    try (apply issued_nil; reflexivity).
  apply issued_of_sent. destruct reply; reflexivity.
Qed.

(** X24. Every render request names its job twice, in the body and in the
    MixConfig inside it, and the two always agree: an export or preview
    request carries the MixConfig of the store at the call, whose job id is
    the (non-empty) job id of the request. The two handlers send no other
    kind of request. *)
Theorem render_requests_name_one_job :
  forall (base : string) (filename : option string) (er : Reply ExportResponse.t)
         (pr : Reply PreviewResponse.t) (w : World) (req : Request),
    In req (issued (exportAudio base filename er) w
            ++ issued (handleGeneratePreview base pr) w) ->
    match req with
    | POST_export j cfg _ | POST_preview j cfg _ _ =>
        j = MixConfig.job_id cfg /\ j <> "" /\ cfg = getMixConfig (store w)
    | _ => False
    end.
Proof.
  intros base filename er pr w req Hin.
  apply in_app_or in Hin. destruct Hin as [Hin | Hin].
  - rewrite issued_exportAudio in Hin.
    destruct (jobId (store w)) as [[| c j] |] eqn:Ej; cbn [truthy] in Hin;
      try (destruct Hin; fail).
    destruct Hin as [<- | []].
    unfold getMixConfig. cbn [MixConfig.job_id or_else]. rewrite Ej.
    repeat split. discriminate.
  - assert (H : issued (handleGeneratePreview base pr) w = [] \/
                exists c j d,
                  jobId (store w) = Some (String c j) /\
                  issued (handleGeneratePreview base pr) w
                  = [POST_preview (String c j) (getMixConfig (store w)) (of_Z 0) d]).
    { destruct w as [s q a e p u pl].
      destruct s as [f1 f2 j f4 f5 f6 r ts f9 f10 f11 f12 f13 f14 f15 f16 f17].
      destruct r as [res |]; [| left; apply issued_nil; reflexivity].
      destruct ts as [| t ts]; [left; apply issued_nil; reflexivity |].
      destruct j as [[| c j] |];
        [left; apply issued_nil; reflexivity | | left; apply issued_nil; reflexivity].
      right. exists c, j, (Math_min [of_Z 60; AnalysisResult.duration_seconds res]).
      split; [reflexivity|].
      apply issued_of_sent.
      destruct pr as [resp | err]; [| reflexivity].
      unfold handleGeneratePreview, generatePreview, exec, bind, gets, act, send, ret,
        setPreviewError, setIsGenerating, setPreviewUrl, setPlayerPreviewUrl,
        setHasGeneratedPreview.
      cbn -[Math_min getMixConfig getAudioUrl].
      destruct (getAudioUrl base (PreviewResponse.preview_url resp)); reflexivity. }
    destruct H as [H | [c [j [d [Ej H]]]]]; rewrite H in Hin; [destruct Hin|].
    destruct Hin as [<- | []].
    unfold getMixConfig. cbn [MixConfig.job_id]. rewrite Ej.
    repeat split. discriminate.
Qed.

Lemma render_requests_name_one_job_witness :
  In (POST_export "abc123def456" (getMixConfig (store Sample.world_done)) None)
     (issued (exportAudio "http://localhost:8000" None SampleStates.export_ok)
             Sample.world_done
      ++ issued (handleGeneratePreview "http://localhost:8000" Sample.preview_ok)
                Sample.world_done) /\
  MixConfig.job_id (getMixConfig (store Sample.world_done)) = "abc123def456".
Proof.
  assert (H : In (POST_export "abc123def456" (getMixConfig (store Sample.world_done)) None)
                 (issued (exportAudio "http://localhost:8000" None SampleStates.export_ok)
                         Sample.world_done
                  ++ issued (handleGeneratePreview "http://localhost:8000"
                               Sample.preview_ok) Sample.world_done)).
  { left. reflexivity. }
  split; [exact H|].
  symmetry.
  apply (proj1 (render_requests_name_one_job "http://localhost:8000" None
                  SampleStates.export_ok Sample.preview_ok Sample.world_done _ H)).
Defined.

(** ** Instances of the properties with premises *)

Lemma setMainSpeaker_designates_by_id_witness :
  unknown_id "speaker_9" SampleStates.adjusted /\
  main_count (tracks (setMainSpeaker "speaker_9" SampleStates.adjusted)) = 0.
Proof.
  assert (H : unknown_id "speaker_9" SampleStates.adjusted).
  { intros t [<- | [<- | []]]; reflexivity. }
  split; [exact H|].
  destruct (setMainSpeaker_designates_by_id "speaker_9" SampleStates.adjusted)
    as [_ [_ [_ [_ [_ [Hnone _]]]]]].
  apply Hnone. exact H.
Defined.

Lemma steps_done_in_order_witness :
  step_done Finalize (setProgress (of_Z 100) initialState) = true /\
  step_done Diarize (setProgress (of_Z 100) initialState) = true.
Proof.
  assert (H : step_done Finalize (setProgress (of_Z 100) initialState) = true)
    by reflexivity.
  split; [exact H|].
  apply (proj1 (steps_done_in_order (setProgress (of_Z 100) initialState))). exact H.
Defined.

